(** * gemini-tool: the gopls definition tool ([GoplsTool])

    A shallow embedding of the symbol-definition tool of package [main]:
    [findSymbolPosition], [getDefinitionAtPosition], [getCodeAtLocation],
    [initializeWorkspace] and [GetCodeDefinitions], together with the few
    functions of Go's [strings] and [fmt] packages they call; of the
    directory tool, [walkDirectory] and [GetDirectoryStructure]; and of
    [handleFunctionCall], which runs the two tools for the model.

    Conventions.
    - A Go [string] is a sequence of bytes: [String.string], one [ascii] per byte.
    - A Go [int] is a [Z]; where the program does arithmetic that can leave
      the 64-bit range ([Line+1]) the wrap-around is written out ([int_add]).
    - A Go [error] is its message.
    - A function that returns [(T, error)] returns a [Result T]; a function
      that may stop with a run-time panic (an index out of range) returns
      an [Exec]. *)

From Stdlib Require Import ZArith List Bool Lia.
From Stdlib Require Import Strings.String Strings.Ascii.
From Stdlib Require Import Numbers.DecimalString Numbers.DecimalZ Numbers.DecimalPos.
Import ListNotations.

Local Open Scope list_scope.
Local Open Scope string_scope.
Local Open Scope Z_scope.

(** ** Go's [strings] package *)

Module strings.

(** The line feed, ["\n"]. *)
Definition LF : ascii := "010"%char.
Definition nl : string := String LF EmptyString.

(** [strings.HasPrefix(s, prefix)]. *)
Fixpoint HasPrefix (s prefix : string) {struct prefix} : bool :=
  match prefix with
  | EmptyString => true
  | String p prefix' =>
      match s with
      | EmptyString => false
      | String c s' => Ascii.eqb c p && HasPrefix s' prefix'
      end
  end.

(** [strings.Index(s, substr)]: the byte index of the first instance of
    [substr] in [s], or [-1]. *)
Fixpoint Index (s substr : string) : Z :=
  if HasPrefix s substr then 0
  else match s with
       | EmptyString => -1
       | String _ s' =>
           let i := Index s' substr in
           if i =? -1 then -1 else i + 1
       end.

(** [strings.Contains(s, substr)] is [Index(s, substr) >= 0]. *)
Definition Contains (s substr : string) : bool := 0 <=? Index s substr.

(** [strings.Split(s, sep)] for a separator of one byte, the only kind the
    program passes (["\n"]). The result is never empty: a string without the
    separator is returned whole, and [n] separators give [n+1] pieces. *)
Fixpoint Split (s : string) (sep : ascii) : list string :=
  match s with
  | EmptyString => [EmptyString]
  | String c s' =>
      if Ascii.eqb c sep then EmptyString :: Split s' sep
      else match Split s' sep with
           | [] => [String c EmptyString]
           | piece :: pieces => String c piece :: pieces
           end
  end.

(** [s[n:]] for [0 <= n]; the whole tail is dropped when [s] is shorter. *)
Fixpoint drop (n : nat) (s : string) : string :=
  match n, s with
  | O, _ => s
  | S _, EmptyString => EmptyString
  | S n', String _ s' => drop n' s'
  end.

(** [strings.TrimPrefix(s, prefix)]. *)
Definition TrimPrefix (s prefix : string) : string :=
  if HasPrefix s prefix then drop (String.length prefix) s else s.

End strings.

Import strings.

(** ** Integers and formatting *)

(** Go's [int] on the 64-bit platforms the tool runs on. *)
Definition wrap64 (z : Z) : Z := (z + 2 ^ 63) mod 2 ^ 64 - 2 ^ 63.
Definition int_add (x y : Z) : Z := wrap64 (x + y).
Definition MaxInt : Z := 2 ^ 63 - 1.

(** The verb [%d] of [fmt.Sprintf] on an [int]. *)
Definition formatInt (z : Z) : string := NilZero.string_of_int (Z.to_int z).

(** [len(xs)] as an [int]. *)
Definition len {A : Type} (xs : list A) : Z := Z.of_nat (List.length xs).

(** ** The [protocol] package: positions, ranges and locations

    All zero-based, as exchanged with gopls. *)

Record Position : Type := mkPosition { Line : Z; Character : Z }.
Record Range : Type := mkRange { Start : Position; End : Position }.
Record Location : Type := mkLocation { URI : string; LRange : Range }.

(** ** Results, errors and panics *)

Definition error : Type := string.

(** What a Go function of result type [(T, error)] returns. *)
Inductive Result (A : Type) : Type :=
| Ok (a : A)
| Err (err : error).
Arguments Ok {A} a.
Arguments Err {A} err.

(** How a call ends: it returns, or the run time stops the program with
    "index out of range [index] with length length". *)
Inductive Exec (A : Type) : Type :=
| Returns (a : A)
| Panics (index length : Z).
Arguments Returns {A} a.
Arguments Panics {A} index length.

(** [xs[i]] on a slice. *)
Definition index {A : Type} (xs : list A) (i : Z) : option A :=
  if (0 <=? i) && (i <? len xs) then nth_error xs (Z.to_nat i) else None.

(** ** [findSymbolPosition] *)

(** The patterns tried on every line, in the order of the slice literal. *)
Definition patterns (symbol : string) : list string :=
  [ "func " ++ symbol ++ "(";
    "func (" ++ symbol ++ ")";
    "type " ++ symbol ++ " ";
    "var " ++ symbol ++ " ";
    "const " ++ symbol ++ " ";
    symbol ++ " :=";
    symbol ++ " =" ].

(** The inner loop [for _, pattern := range patterns]: the index of the first
    pattern of the list that occurs in [line]. *)
Fixpoint matchPatterns (line : string) (pats : list string) : option Z :=
  match pats with
  | [] => None
  | pattern :: rest =>
      let idx := Index line pattern in
      if negb (idx =? -1) then Some idx else matchPatterns line rest
  end.

(** The outer loop [for lineNum, line := range lines]. *)
Fixpoint scanLines (lines : list string) (lineNum : Z) (symbol : string)
  : option Position :=
  match lines with
  | [] => None
  | line :: rest =>
      match matchPatterns line (patterns symbol) with
      | Some idx => Some (mkPosition lineNum idx)
      | None =>
          if Contains line symbol
          then Some (mkPosition lineNum (Index line symbol))
          else scanLines rest (lineNum + 1) symbol
      end
  end.

(** [findSymbolPosition(content, symbol)]; [None] is the [nil] pointer. *)
Definition findSymbolPosition (content symbol : string) : option Position :=
  let lines := Split content LF in
  scanLines lines 0 symbol.

(** ** The gopls client

    [GoplsClient] (its struct and the methods [Initialize], [DidOpen] and
    [GoToDefinition]) lives in a file of the package that is not at hand. The
    tool only calls it, so the client is a parameter: a type of client states
    and the four operations the tool uses, each taking the state of the
    client and returning the new one. *)

Record GoplsClientOps (Client : Type) : Type := mkGoplsClientOps {
  (** the field [initialized] *)
  initialized : Client -> bool;
  (** [Initialize() error] *)
  Initialize : Client -> Client * option error;
  (** [DidOpen(uri, languageID, text) error] *)
  DidOpen : string -> string -> string -> Client -> Client * option error;
  (** [GoToDefinition(uri, line, character) ([]protocol.Location, error)] *)
  GoToDefinition : string -> Z -> Z -> Client -> Client * Result (list Location)
}.
Arguments initialized {Client} _ _.
Arguments Initialize {Client} _ _.
Arguments DidOpen {Client} _ _ _ _ _.
Arguments GoToDefinition {Client} _ _ _ _ _.

(** ** [GoplsTool] *)

Section GoplsTool.

Context {Client : Type}.
(** [gt.goplsClient] *)
Variable goplsClient : GoplsClientOps Client.
(** [os.ReadFile], with the file's bytes as a string; the files do not
    change while the tool runs. *)
Variable ReadFile : string -> Result string.

(** [initializeWorkspace(filePath)]. *)
Definition initializeWorkspace (filePath : string) (c : Client)
  : Client * option error :=
  let '(c, err) :=
    if negb (initialized goplsClient c) then Initialize goplsClient c
    else (c, None) in
  match err with
  | Some err => (c, Some ("failed to initialize gopls: " ++ err))
  | None =>
      match ReadFile filePath with
      | Err err => (c, Some ("failed to read file content: " ++ err))
      | Ok content =>
          let uri := "file://" ++ filePath in
          let '(c, err) := DidOpen goplsClient uri "go" content c in
          match err with
          | Some err =>
              (c, Some ("failed to open document in gopls: " ++ err))
          | None => (c, None)
          end
      end
  end.

(** [getDefinitionAtPosition(filePath, position)]. *)
Definition getDefinitionAtPosition (filePath : string) (position : Position)
  (c : Client) : Client * Result Location :=
  let uri := "file://" ++ filePath in
  let '(c, r) :=
    GoToDefinition goplsClient uri (Line position) (Character position) c in
  match r with
  | Err err => (c, Err err)
  | Ok locations =>
      match locations with
      | [] => (c, Err "no definition found")
      | first :: _ => (c, Ok first)
      end
  end.

(** The loop [for i := startLine; i <= endLine; i++] of
    [getCodeAtLocation], with [result] the builder. The recursion is on
    [n], the number of iterations that remain: the caller starts it at
    [endLine - startLine + 1], so [n] reaches [0] exactly when
    [i <= endLine] fails. *)
Fixpoint extractLines (lines : list string) (endLine : Z) (n : nat) (i : Z)
  (result : string) : Exec string :=
  match n with
  | O => Returns result
  | S n' =>
      if i <=? endLine then
        if i <? len lines then
          match index lines i with
          | None => Panics i (len lines)
          | Some line =>
              let result := result ++ line in
              let result := if i <? endLine then result ++ nl else result in
              extractLines lines endLine n' (i + 1) result
          end
        else extractLines lines endLine n' (i + 1) result
      else Returns result
  end.

(** [getCodeAtLocation(location)]. *)
Definition getCodeAtLocation (location : Location) : Exec (Result string) :=
  let filePath := TrimPrefix (URI location) "file://" in
  match ReadFile filePath with
  | Err err => Returns (Err err)
  | Ok content =>
      let lines := Split content LF in
      let startLine := Line (Start (LRange location)) in
      let endLine := Line (End (LRange location)) in
      if len lines <=? startLine then
        Returns (Err "start line out of bounds")
      else
        let endLine :=
          if len lines <=? endLine then len lines - 1 else endLine in
        match extractLines lines endLine
                (Z.to_nat (endLine - startLine + 1)) startLine "" with
        | Returns result => Returns (Ok result)
        | Panics i n => Panics i n
        end
  end.

(** The body of the loop [for _, symbol := range symbols] of
    [GetCodeDefinitions]: [results] is the builder, returned with what the
    iteration wrote to it. *)
Definition lookupSymbol (filePath fileContent symbol : string) (c : Client)
  (results : string) : Exec (Client * string) :=
  match findSymbolPosition fileContent symbol with
  | None =>
      Returns (c, results ++ "Symbol '" ++ symbol ++ "': Not found in file" ++ nl)
  | Some position =>
      let '(c, r) := getDefinitionAtPosition filePath position c in
      match r with
      | Err err =>
          Returns (c, results ++ "Symbol '" ++ symbol
                        ++ "': Error getting definition - " ++ err ++ nl)
      | Ok definition =>
          let results := results ++ "Symbol '" ++ symbol ++ "':" ++ nl in
          let results :=
            results ++ "  Location: " ++ URI definition ++ nl in
          let results :=
            results ++ "  Line: "
              ++ formatInt (int_add (Line (Start (LRange definition))) 1)
              ++ ", Character: "
              ++ formatInt (int_add (Character (Start (LRange definition))) 1)
              ++ nl in
          match getCodeAtLocation definition with
          | Panics i n => Panics i n
          | Returns r =>
              let results :=
                match r with
                | Ok defContent =>
                    if negb (defContent =? "")%string
                    then results ++ "  Code:" ++ nl ++ defContent ++ nl
                    else results
                | Err _ => results
                end in
              Returns (c, results ++ nl)
          end
      end
  end.

(** The loop itself. *)
Fixpoint lookupSymbols (filePath fileContent : string) (symbols : list string)
  (c : Client) (results : string) : Exec (Client * string) :=
  match symbols with
  | [] => Returns (c, results)
  | symbol :: rest =>
      match lookupSymbol filePath fileContent symbol c results with
      | Panics i n => Panics i n
      | Returns (c, results) =>
          lookupSymbols filePath fileContent rest c results
      end
  end.

(** [GetCodeDefinitions(filePath, symbols)]. *)
Definition GetCodeDefinitions (filePath : string) (symbols : list string)
  (c : Client) : Exec (Client * Result string) :=
  let '(c, err) := initializeWorkspace filePath c in
  match err with
  | Some err => Returns (c, Err ("failed to initialize workspace: " ++ err))
  | None =>
      let results := "Code Definitions:" ++ nl ++ nl in
      match ReadFile filePath with
      | Err err => Returns (c, Err ("failed to read file: " ++ err))
      | Ok content =>
          let fileContent := content in
          match lookupSymbols filePath fileContent symbols c results with
          | Panics i n => Panics i n
          | Returns (c, result) => Returns (c, Ok result)
          end
      end
  end.

End GoplsTool.

(** ** What the tool sends to the client

    To speak about the requests of a run, any client is wrapped into one that
    also keeps the list of the calls it received, oldest first. *)

Inductive Call : Type :=
| CallInitialize
| CallDidOpen (uri languageID text : string)
| CallGoToDefinition (uri : string) (line character : Z).

(** The document a call is about. *)
Definition documentURI (call : Call) : option string :=
  match call with
  | CallInitialize => None
  | CallDidOpen uri _ _ => Some uri
  | CallGoToDefinition uri _ _ => Some uri
  end.

Definition recording {Client : Type} (ops : GoplsClientOps Client)
  : GoplsClientOps (Client * list Call) :=
  {| initialized := fun s => initialized ops (fst s);
     Initialize := fun s =>
       let '(c, err) := Initialize ops (fst s) in
       ((c, (snd s ++ [CallInitialize])%list), err);
     DidOpen := fun uri languageID text s =>
       let '(c, err) := DidOpen ops uri languageID text (fst s) in
       ((c, (snd s ++ [CallDidOpen uri languageID text])%list), err);
     GoToDefinition := fun uri line character s =>
       let '(c, r) := GoToDefinition ops uri line character (fst s) in
       ((c, (snd s ++ [CallGoToDefinition uri line character])%list), r) |}.

(** ** The session of the design

    Modelled from the spec: the [Initialize] operation of the Session state
    machine (section 4.4). Its code, the method [GoplsClient.Initialize], is
    in the file of the package that is not at hand; of the client only the
    guard [if !gt.goplsClient.initialized] in [initializeWorkspace] is
    visible. *)

Module Session.

(** Modelled from the spec: the states of a Session (section 3). *)
Inductive SessionState : Type :=
| Uninitialized | Initializing | Ready | Closing | Closed.

(** Modelled from the spec: the errors of the Session's operations
    (section 7). *)
Inductive SessionError : Type :=
| NotReadyError | AlreadyInitializedError | HandshakeError | ClosedError.

(** Modelled from the spec: what is written to the subprocess, a Request
    with its id or a Notification (section 3). *)
Inductive Message : Type :=
| Request (id : Z) (method : string)
| Notification (method : string).

(** Modelled from the spec: a Session, with its state, the id of its next
    Request and what it has sent so far. *)
Record Session : Type := mkSession {
  state : SessionState;
  nextID : Z;
  sent : list Message
}.

(** Modelled from the spec: the Response to the [initialize] Request, a
    result or an error. *)
Inductive InitializeResponse : Type := InitializeResult | InitializeFailure.

(** Modelled from the spec: a new Session is [Uninitialized]; request ids
    start at 1. *)
Definition new : Session := mkSession Uninitialized 1 [].

(** Modelled from the spec: [Initialize()]. From [Uninitialized] it sends
    the [initialize] Request (the Session is [Initializing] until the
    Response is there); a successful Response is followed by the
    [initialized] Notification and the state [Ready], an error Response by
    the state [Closed] and [HandshakeError]. Called again, while
    [Initializing] or [Ready], it fails with [AlreadyInitializedError] and
    leaves the Session as it is; from [Closing] on it fails with
    [ClosedError]. *)
Definition Initialize (response : InitializeResponse) (s : Session)
  : Session * option SessionError :=
  match state s with
  | Uninitialized =>
      let request := Request (nextID s) "initialize" in
      match response with
      | InitializeResult =>
          (mkSession Ready (nextID s + 1)
             (sent s ++ [request; Notification "initialized"])%list, None)
      | InitializeFailure =>
          (mkSession Closed (nextID s + 1) (sent s ++ [request])%list,
           Some HandshakeError)
      end
  | Initializing | Ready => (s, Some AlreadyInitializedError)
  | Closing | Closed => (s, Some ClosedError)
  end.

End Session.

(** ** A small workspace to run the tool on

    One file, [/a.go], and a client that answers every definition request
    with the span of [Foo] in it. *)

Module Demo.

Definition source : string :=
  "func Foo() {}" ++ nl ++ "var x = Foo" ++ nl.

Definition ReadFile (path : string) : Result string :=
  if (path =? "/a.go")%string then Ok source
  else Err ("open " ++ path ++ ": no such file or directory").

Definition fooLocation : Location :=
  mkLocation "file:///a.go" (mkRange (mkPosition 0 5) (mkPosition 0 8)).

(** The state of this client is its [initialized] flag. *)
Definition client : GoplsClientOps bool :=
  {| initialized := fun c => c;
     Initialize := fun _ => (true, None);
     DidOpen := fun _ _ _ c => (c, None);
     GoToDefinition := fun _ _ _ c => (c, Ok [fooLocation]) |}.

End Demo.

(** ** [DirectoryStructureTool]

    The directory tree is given by what [os.ReadDir] returns: for a
    directory an error or its entries, and an entry is a directory
    ([IsDir()] true) or anything else. The path of a directory only serves to
    read it and to log, so the walk takes the directory in its place. *)

Local Unset Elimination Schemes.
Inductive Directory : Type :=
| Unreadable (err : error)
| Listing (entries : list DirEntry)
with DirEntry : Type :=
| File (name : string)
| Dir (name : string) (directory : Directory).
Local Set Elimination Schemes.

(** [entry.Name()] *)
Definition Name (entry : DirEntry) : string :=
  match entry with
  | File name => name
  | Dir name _ => name
  end.

(** The loop [for i, entry := range entries] of [walkDirectory], from the
    entry of index [i] on: [total] is [len(entries)], [result] the builder,
    and [walkSub] the call of [walkDirectory] on a subdirectory with the new
    prefix, whose error is logged and dropped. *)
Fixpoint walkEntries (walkSub : Directory -> string -> string -> string * option error)
  (total : Z) (prefix : string) (remaining : list DirEntry) (i : Z)
  (result : string) {struct remaining} : string :=
  match remaining with
  | [] => result
  | entry :: rest =>
      if HasPrefix (Name entry) "." then
        walkEntries walkSub total prefix rest (i + 1) result
      else
        let isLast := i =? total - 1 in
        let connector := if isLast then "└── " else "├── " in
        let newPrefix :=
          if isLast then prefix ++ "    " else prefix ++ "│   " in
        let result := result ++ (prefix ++ connector ++ Name entry) in
        match entry with
        | Dir _ sub =>
            let result := result ++ "/" ++ nl in
            let '(result, _) := walkSub sub newPrefix result in
            walkEntries walkSub total prefix rest (i + 1) result
        | File _ =>
            walkEntries walkSub total prefix rest (i + 1) (result ++ nl)
        end
  end.

(** [walkDirectory(path, prefix, currentDepth, maxDepth, result)], with
    [directory] what [os.ReadDir(path)] returns and [result] the builder. *)
Fixpoint walkDirectory (directory : Directory) (prefix : string)
  (currentDepth maxDepth : Z) (result : string) {struct directory}
  : string * option error :=
  if maxDepth <? currentDepth then (result, None)
  else
    match directory with
    | Unreadable err => (result, Some err)
    | Listing entries =>
        (walkEntries
           (fun sub newPrefix result =>
              walkDirectory sub newPrefix (int_add currentDepth 1) maxDepth
                result)
           (len entries) prefix entries 0 result,
         None)
    end.

(** [GetDirectoryStructure(path, maxDepth)]; [ReadDir] gives the tree under
    each path. *)
Definition GetDirectoryStructure (ReadDir : string -> Directory)
  (path : string) (maxDepth : Z) : Result string :=
  let result := "" in
  match walkDirectory (ReadDir path) "" 0 maxDepth result with
  | (_, Some err) => Err err
  | (result, None) => Ok result
  end.

(** ** Function calls of the model

    The arguments of a [genai.FunctionCall] are a [map[string]any] decoded
    from JSON: a value is [nil], a [bool], a [float64], a [string], a
    [[]interface{}] or a [map[string]interface{}]. The type [float64] and the
    conversion [int(depth)], which Go defines by truncation and leaves to the
    implementation outside the range of [int], are parameters. *)

Section FunctionCalls.

Variable float64 : Type.
(** [int(depth)] *)
Variable truncate : float64 -> Z.

Local Unset Elimination Schemes.
Inductive Value : Type :=
| VNull
| VBool (b : bool)
| VNumber (f : float64)
| VString (s : string)
| VArray (items : list Value)
| VObject (fields : list (string * Value)).
Local Set Elimination Schemes.

(** [call.Args]: a key is absent or has a value. *)
Definition Args : Type := string -> option Value.

(** The map with the fields listed, the first binding of a key counting. *)
Fixpoint object (fields : list (string * Value)) : Args :=
  fun key =>
    match fields with
    | [] => None
    | (k, v) :: rest => if (key =? k)%string then Some v else object rest key
    end.

(** [call.Args[key].(string)] *)
Definition stringArg (args : Args) (key : string) : option string :=
  match args key with
  | Some (VString s) => Some s
  | _ => None
  end.

(** [call.Args[key].([]interface{})] *)
Definition arrayArg (args : Args) (key : string) : option (list Value) :=
  match args key with
  | Some (VArray items) => Some items
  | _ => None
  end.

(** The loop [for i, symbol := range symbolsParam] that fills [symbols],
    from index [i] on. *)
Fixpoint symbolStrings (symbolsParam : list Value) (i : Z)
  : Result (list string) :=
  match symbolsParam with
  | [] => Ok []
  | symbol :: rest =>
      match symbol with
      | VString symbolStr =>
          match symbolStrings rest (i + 1) with
          | Ok symbols => Ok (symbolStr :: symbols)
          | Err err => Err err
          end
      | _ => Err ("symbol at index " ++ formatInt i ++ " is not a string")
      end
  end.

Context {Client : Type}.
(** [goplsTool.goplsClient] *)
Variable goplsClient : GoplsClientOps Client.
Variable ReadFile : string -> Result string.
Variable ReadDir : string -> Directory.

(** The call [goplsTool.GetCodeDefinitions(path, symbols)] of both branches
    that use gopls, with the error wrapped as they wrap it. *)
Definition callGetCodeDefinitions (path : string) (symbols : list string)
  (c : Client) : Exec (Client * Result string) :=
  match GetCodeDefinitions goplsClient ReadFile path symbols c with
  | Panics i n => Panics i n
  | Returns (c, Err err) =>
      Returns (c, Err ("failed to get code definitions: " ++ err))
  | Returns (c, Ok definitions) => Returns (c, Ok definitions)
  end.

(** [handleFunctionCall(call, dirTool, goplsTool, logger)], on
    [call.Name] and [call.Args]. *)
Definition handleFunctionCall (name : string) (args : Args) (c : Client)
  : Exec (Client * Result string) :=
  if (name =? "analyze_go_code")%string then
    match stringArg args "action" with
    | None =>
        Returns (c, Err "action parameter is required and must be a string")
    | Some actionParam =>
        match stringArg args "path" with
        | None =>
            Returns (c, Err "path parameter is required and must be a string")
        | Some pathParam =>
            if (actionParam =? "code_definitions")%string then
              match arrayArg args "symbols" with
              | None =>
                  Returns (c, Err "symbols parameter is required and must be an array for code_definitions action")
              | Some symbolsParam =>
                  match symbolStrings symbolsParam 0 with
                  | Err err => Returns (c, Err err)
                  | Ok symbols => callGetCodeDefinitions pathParam symbols c
                  end
              end
            else Returns (c, Err ("unknown action: " ++ actionParam))
        end
    end
  else if (name =? "get_directory_structure")%string then
    match stringArg args "path" with
    | None => Returns (c, Err "path parameter is required and must be a string")
    | Some pathParam =>
        let maxDepth :=
          match args "max_depth" with
          | Some (VNumber depth) => truncate depth
          | _ => 3
          end in
        match GetDirectoryStructure ReadDir pathParam maxDepth with
        | Err err =>
            Returns (c, Err ("failed to get directory structure: " ++ err))
        | Ok structure => Returns (c, Ok structure)
        end
    end
  else if (name =? "get_code_definitions")%string then
    match stringArg args "file_path" with
    | None =>
        Returns (c, Err "file_path parameter is required and must be a string")
    | Some filePathParam =>
        match arrayArg args "symbols" with
        | None =>
            Returns (c, Err "symbols parameter is required and must be an array")
        | Some symbolsParam =>
            match symbolStrings symbolsParam 0 with
            | Err err => Returns (c, Err err)
            | Ok symbols => callGetCodeDefinitions filePathParam symbols c
            end
        end
    end
  else Returns (c, Err ("unknown function: " ++ name)).

(** The [switch funcCall.Name] of [GenerateContent] that chooses the prompt
    sent back to the model with the result of a function call. *)
Definition followUpPrompt (name : string) (args : Args) : string :=
  let unitTests :=
    "Based on the code definitions provided, please analyze the code structure and help with generating appropriate unit tests." in
  let goCode :=
    "Please analyze the Go code data provided by the function call and provide relevant insights." in
  if (name =? "analyze_go_code")%string then
    match stringArg args "action" with
    | Some actionParam =>
        if (actionParam =? "code_definitions")%string then unitTests else goCode
    | None => goCode
    end
  else if (name =? "get_code_definitions")%string then unitTests
  else
    "Please analyze the data provided by the function call and provide relevant insights.".

(** [handleFunctionCall(call, dirTool, logger)] of [main.go], the program
    with the directory tool alone. *)
Definition handleDirectoryCall (name : string) (args : Args) : Result string :=
  if (name =? "get_directory_structure")%string then
    match stringArg args "path" with
    | None => Err "path parameter is required and must be a string"
    | Some pathParam =>
        let maxDepth :=
          match args "max_depth" with
          | Some (VNumber depth) => truncate depth
          | _ => 3
          end in
        match GetDirectoryStructure ReadDir pathParam maxDepth with
        | Err err => Err ("failed to get directory structure: " ++ err)
        | Ok structure => Ok structure
        end
    end
  else Err ("unknown function: " ++ name).

End FunctionCalls.

Arguments VNull {float64}.
Arguments VBool {float64} b.
Arguments VNumber {float64} f.
Arguments VString {float64} s.
Arguments VArray {float64} items.
Arguments VObject {float64} fields.

(** ** Vocabulary of the statements *)

(** [substr] occurs in [s] as a substring. *)
Definition Occurs (substr s : string) : Prop :=
  exists pre post, s = pre ++ substr ++ post.

(** [pattern] matches on [line], in the sense of the test
    [strings.Index(line, pattern) != -1]. *)
Definition Matches (line pattern : string) : Prop := Index line pattern <> -1.

(** The reading of the locator in which a structural pattern anywhere in the
    content is preferred to a plain occurrence: the position returned for
    [content] is on the first line on which some pattern matches. *)
Definition structural_match_first (content symbol : string) : Prop :=
  forall before line after,
    Split content LF = (before ++ line :: after)%list ->
    Forall (fun l => matchPatterns l (patterns symbol) = None) before ->
    matchPatterns line (patterns symbol) <> None ->
    exists character,
      findSymbolPosition content symbol = Some (mkPosition (len before) character).

(** The lines numbered [startLine] to [endLine], both included, as far as
    the file has them. *)
Definition linesBetween (lines : list string) (startLine endLine : Z)
  : list string :=
  firstn (Z.to_nat (endLine - startLine + 1)) (skipn (Z.to_nat startLine) lines).

(** Lines put together again, a line feed between two of them. *)
Definition joinLines (lines : list string) : string := String.concat nl lines.

(** The text of a list of entries, one after the other. *)
Definition textOf (entries : list string) : string :=
  fold_right String.append "" entries.

(** Reading a printed [int] back. *)
Definition parseInt (s : string) : option Z :=
  option_map Z.of_int (NilZero.int_of_string s).

(** The pieces of a report. *)
Definition reportHeader : string := "Code Definitions:" ++ nl ++ nl.

Definition notFoundEntry (symbol : string) : string :=
  "Symbol '" ++ symbol ++ "': Not found in file" ++ nl.

Definition failureEntry (symbol : string) (err : error) : string :=
  "Symbol '" ++ symbol ++ "': Error getting definition - " ++ err ++ nl.

Definition locationBlock (symbol uri : string) (line character : Z) : string :=
  "Symbol '" ++ symbol ++ "':" ++ nl
  ++ "  Location: " ++ uri ++ nl
  ++ "  Line: " ++ formatInt line ++ ", Character: " ++ formatInt character ++ nl.

Definition codeBlock (excerpt : string) : string :=
  "  Code:" ++ nl ++ excerpt ++ nl.

Section Report.

Context {Client : Type}.
Variable goplsClient : GoplsClientOps Client.
Variables filePath fileContent : string.

(** The client answers a definition request with locations whose start line
    is a line number, that is, not negative. *)
Definition answersWithLineNumbers : Prop :=
  forall uri line character c c' first others,
    GoToDefinition goplsClient uri line character c = (c', Ok (first :: others)) ->
    0 <= Line (Start (LRange first)).

(** [SymbolEntry symbol c c' entry]: [entry] is what the report says about
    [symbol] when the client is in state [c] before the symbol is looked up
    and in state [c'] after. *)
Inductive SymbolEntry (symbol : string) (c : Client) : Client -> string -> Prop :=
| EntryNotFound :
    findSymbolPosition fileContent symbol = None ->
    SymbolEntry symbol c c (notFoundEntry symbol)
| EntryRequestFailed (position : Position) (c' : Client) (err : error) :
    findSymbolPosition fileContent symbol = Some position ->
    GoToDefinition goplsClient ("file://" ++ filePath)
      (Line position) (Character position) c = (c', Err err) ->
    SymbolEntry symbol c c' (failureEntry symbol err)
| EntryNoDefinition (position : Position) (c' : Client) :
    findSymbolPosition fileContent symbol = Some position ->
    GoToDefinition goplsClient ("file://" ++ filePath)
      (Line position) (Character position) c = (c', Ok []) ->
    SymbolEntry symbol c c' (failureEntry symbol "no definition found")
| EntryDefinition (position : Position) (c' : Client)
    (first : Location) (others : list Location) (code : string) :
    findSymbolPosition fileContent symbol = Some position ->
    GoToDefinition goplsClient ("file://" ++ filePath)
      (Line position) (Character position) c = (c', Ok (first :: others)) ->
    code = "" \/ (exists excerpt, code = codeBlock excerpt) ->
    SymbolEntry symbol c c'
      (locationBlock symbol (URI first)
         (int_add (Line (Start (LRange first))) 1)
         (int_add (Character (Start (LRange first))) 1)
       ++ code ++ nl).

(** One entry for each symbol, in the order of the symbols. *)
Inductive ReportEntries : list string -> Client -> Client -> list string -> Prop :=
| EntriesNil (c : Client) : ReportEntries [] c c []
| EntriesCons (symbol : string) (symbols : list string) (c c' c'' : Client)
    (entry : string) (entries : list string) :
    SymbolEntry symbol c c' entry ->
    ReportEntries symbols c' c'' entries ->
    ReportEntries (symbol :: symbols) c c'' (entry :: entries).

End Report.

(** [sentFor uri log log']: the record [log'] is [log] followed by calls that
    are about no document or about the document [uri]. *)
Definition sentFor (uri : string) (log log' : list Call) : Prop :=
  exists calls,
    log' = (log ++ calls)%list /\
    Forall (fun call => forall u, documentURI call = Some u -> u = uri) calls.

(** [substr] occurs in [s] at the byte index [i]. *)
Definition StartsAt (s substr : string) (i : Z) : Prop :=
  exists pre post,
    s = pre ++ substr ++ post /\ Z.of_nat (String.length pre) = i.

(** What stands before the symbol in a pattern: nothing in the two
    assignment patterns, a keyword in the five others. *)
Definition keywords : list string :=
  [""; "func "; "func ("; "type "; "var "; "const "].

(** The definition requests for a list of symbols: one for each symbol the
    locator finds in [fileContent], at the position it gives, in order. *)
Definition definitionRequests (uri fileContent : string)
  (symbols : list string) : list Call :=
  flat_map
    (fun symbol =>
       match findSymbolPosition fileContent symbol with
       | Some position =>
           [CallGoToDefinition uri (Line position) (Character position)]
       | None => []
       end)
    symbols.

(** The handshake of a run: the call of [Initialize] on a client that is not
    initialized, nothing on one that is. *)
Definition handshakeCalls {Client : Type} (ops : GoplsClientOps Client)
  (c : Client) : list Call :=
  if initialized ops c then [] else [CallInitialize].

(** An entry the walk skips: its name begins with a dot. *)
Definition hidden (entry : DirEntry) : bool := HasPrefix (Name entry) ".".

(** The tree with every unreadable directory made an empty one. *)
Fixpoint emptied (directory : Directory) : Directory :=
  match directory with
  | Unreadable _ => Listing []
  | Listing entries =>
      Listing
        (map (fun entry =>
                match entry with
                | File name => File name
                | Dir name sub => Dir name (emptied sub)
                end)
           entries)
  end.

(** The first [levels] levels of the tree: a directory at level [levels]
    is left empty. *)
Fixpoint cut (levels : nat) (directory : Directory) : Directory :=
  match levels with
  | O => Listing []
  | S levels' =>
      match directory with
      | Unreadable err => Unreadable err
      | Listing entries =>
          Listing
            (map (fun entry =>
                    match entry with
                    | File name => File name
                    | Dir name sub => Dir name (cut levels' sub)
                    end)
               entries)
      end
  end.

(** The tree without its hidden entries. *)
Fixpoint pruned (directory : Directory) : Directory :=
  match directory with
  | Unreadable err => Unreadable err
  | Listing entries =>
      Listing
        ((fix visible (entries : list DirEntry) : list DirEntry :=
            match entries with
            | [] => []
            | entry :: rest =>
                if hidden entry then visible rest
                else
                  match entry with
                  | File name => File name
                  | Dir name sub => Dir name (pruned sub)
                  end :: visible rest
            end) entries)
  end.

(** The last entry of the list, if there is one, is not hidden. *)
Definition lastVisible (entries : list DirEntry) : bool :=
  match entries with
  | [] => true
  | _ => negb (hidden (last entries (File "")))
  end.

(** In the tree, as far as the walk goes into it, no directory has a hidden
    entry as its last entry. *)
Fixpoint tidy (directory : Directory) : bool :=
  match directory with
  | Unreadable _ => true
  | Listing entries =>
      lastVisible entries
      && forallb (fun entry =>
                    hidden entry
                    || match entry with
                       | File _ => true
                       | Dir _ sub => tidy sub
                       end)
           entries
  end.

(** The entries that are not hidden, each without the hidden entries below
    it. *)
Definition visibleEntries (entries : list DirEntry) : list DirEntry :=
  map (fun entry =>
         match entry with
         | File name => File name
         | Dir name sub => Dir name (pruned sub)
         end)
    (filter (fun entry => negb (hidden entry)) entries).

(** A small directory to run the walk on: a hidden file first, a
    subdirectory with a subdirectory, a file, a directory that cannot be
    read. *)

Module DemoDir.

Definition tree : Directory :=
  Listing
    [ File ".gitignore";
      Dir "src" (Listing [File "main.go"; Dir "protocol" (Listing [File "lsp.go"])]);
      Dir "private" (Unreadable "open private: permission denied");
      File "go.mod" ].

Definition ReadDir (path : string) : Directory :=
  if (path =? ".")%string then tree
  else Unreadable ("open " ++ path ++ ": no such file or directory").

End DemoDir.

(** Function calls to run the handler on: numbers are whole numbers
    here, and [int(depth)] is the number itself. *)

Module DemoCalls.

Definition float64 : Type := Z.
Definition truncate (depth : float64) : Z := depth.

Definition handle : string -> Args float64 -> bool -> Exec (bool * Result string) :=
  handleFunctionCall float64 truncate Demo.client Demo.ReadFile DemoDir.ReadDir.

Definition analyze (symbols : list (Value float64)) : Args float64 :=
  object float64
    [ ("action", VString "code_definitions");
      ("path", VString "/a.go");
      ("symbols", VArray symbols) ].

Definition definitions (symbols : list (Value float64)) : Args float64 :=
  object float64
    [ ("file_path", VString "/a.go"); ("symbols", VArray symbols) ].

Definition structure : Args float64 :=
  object float64 [ ("path", VString "."); ("max_depth", VNumber 0) ].

End DemoCalls.

(** * Properties *)

(** ** Strings *)

Lemma append_assoc (a b c : string) : (a ++ b) ++ c = a ++ b ++ c.
Proof. induction a as [|x a IH]; simpl; [reflexivity | now rewrite IH]. Qed.

Lemma append_nil_r (s : string) : s ++ "" = s.
Proof. induction s as [|x s IH]; simpl; congruence. Qed.

Lemma HasPrefix_iff (s prefix : string) :
  HasPrefix s prefix = true <-> exists t, s = prefix ++ t.
Proof.
  revert s; induction prefix as [|p prefix IH]; intros s; simpl.
  - split; [intros _; now exists s | reflexivity].
  - destruct s as [|c s].
    + split; [discriminate | intros [t Ht]; discriminate].
    + rewrite andb_true_iff, Ascii.eqb_eq, IH. split.
      * intros [-> [t ->]]. now exists t.
      * intros [t Ht]. injection Ht as -> ->. split; [reflexivity | now exists t].
Qed.

Lemma Occurs_refl (s : string) : Occurs s s.
Proof. exists "", "". simpl. now rewrite append_nil_r. Qed.

Lemma Occurs_empty (s : string) : Occurs "" s.
Proof. now exists "", s. Qed.

Lemma Occurs_in_empty (substr : string) : Occurs substr "" -> substr = "".
Proof.
  intros (pre & post & H). destruct pre; [|discriminate].
  destruct substr; [reflexivity | discriminate].
Qed.

Lemma Occurs_cons (substr : string) (c : ascii) (s : string) :
  Occurs substr (String c s) <->
  HasPrefix (String c s) substr = true \/ Occurs substr s.
Proof.
  split.
  - intros (pre & post & H). destruct pre as [|x pre]; simpl in H.
    + left. apply HasPrefix_iff. now exists post.
    + right. injection H as _ ->. now exists pre, post.
  - intros [H | (pre & post & ->)].
    + apply HasPrefix_iff in H as [t Ht]. exists "", t. exact Ht.
    + now exists (String c pre), post.
Qed.

Lemma Occurs_prefix (substr s : string) :
  HasPrefix s substr = true -> Occurs substr s.
Proof. intros H. apply HasPrefix_iff in H as [t ->]. now exists "", t. Qed.

(** A substring of a substring is a substring. *)
Lemma Occurs_trans (a b c : string) : Occurs a b -> Occurs b c -> Occurs a c.
Proof.
  intros (p1 & q1 & ->) (p2 & q2 & ->).
  exists (p2 ++ p1), (q1 ++ q2). now rewrite !append_assoc.
Qed.

Lemma Occurs_append_l (substr s t : string) : Occurs substr s -> Occurs substr (s ++ t).
Proof.
  intros (pre & post & ->). exists pre, (post ++ t). now rewrite !append_assoc.
Qed.

Lemma Index_lower_bound (s substr : string) : -1 <= Index s substr.
Proof.
  induction s as [|c s IH]; simpl; destruct (HasPrefix _ substr); try lia.
  destruct (Index s substr =? -1); lia.
Qed.

(** [strings.Index] finds a substring exactly when there is one. *)
Lemma Index_found (s substr : string) : Index s substr <> -1 <-> Occurs substr s.
Proof.
  induction s as [|c s IH].
  - simpl. destruct (HasPrefix "" substr) eqn:E.
    + split; [intros _; now apply Occurs_prefix | lia].
    + split; [congruence|]. intros H. apply Occurs_in_empty in H. now subst.
  - rewrite Occurs_cons. cbn [Index].
    destruct (HasPrefix (String c s) substr) eqn:E.
    + split; [now left | lia].
    + pose proof (Index_lower_bound s substr) as Hge.
      destruct (Index s substr =? -1) eqn:Ei.
      * apply Z.eqb_eq in Ei. split; [congruence|].
        intros [H | H]; [discriminate | now apply IH in H].
      * apply Z.eqb_neq in Ei. split; [intros _; right; now apply IH | lia].
Qed.

Lemma Index_missing (s substr : string) : Index s substr = -1 <-> ~ Occurs substr s.
Proof.
  rewrite <- Index_found. destruct (Z.eq_dec (Index s substr) (-1)); tauto.
Qed.

Lemma Contains_true (s substr : string) : Contains s substr = true <-> Occurs substr s.
Proof.
  unfold Contains. rewrite <- Index_found, Z.leb_le.
  pose proof (Index_lower_bound s substr). lia.
Qed.

Lemma Contains_false (s substr : string) : Contains s substr = false <-> ~ Occurs substr s.
Proof.
  rewrite <- Contains_true. destruct (Contains s substr); split; congruence.
Qed.

(** ** Lines *)

Lemma len_cons {A : Type} (x : A) (xs : list A) : len (x :: xs) = 1 + len xs.
Proof. unfold len. cbn [List.length]. lia. Qed.

Lemma len_nonneg {A : Type} (xs : list A) : 0 <= len xs.
Proof. unfold len. lia. Qed.

Lemma Split_nonempty (s : string) (sep : ascii) : Split s sep <> [].
Proof.
  destruct s as [|c s]; simpl; [discriminate|].
  destruct (Ascii.eqb c sep); [discriminate|].
  destruct (Split s sep); discriminate.
Qed.

(** The first piece of a split is a prefix of the string. *)
Lemma Split_head_prefix (s : string) (sep : ascii) (piece : string)
  (pieces : list string) :
  Split s sep = piece :: pieces -> exists t, s = piece ++ t.
Proof.
  revert piece pieces. induction s as [|c s IH]; simpl; intros piece pieces H.
  - injection H as <- _. now exists "".
  - destruct (Ascii.eqb c sep).
    + injection H as <- _. now exists (String c s).
    + destruct (Split s sep) as [|p ps] eqn:E.
      * now apply Split_nonempty in E.
      * injection H as <- _. destruct (IH p ps eq_refl) as [t ->]. now exists t.
Qed.

(** What occurs in a line of the content occurs in the content. *)
Lemma Occurs_line_content (substr s : string) :
  Exists (Occurs substr) (Split s LF) -> Occurs substr s.
Proof.
  induction s as [|c s IH]; simpl.
  - intros H. apply Exists_cons in H as [H | H]; [exact H | now apply Exists_nil in H].
  - destruct (Ascii.eqb c LF).
    + intros H. apply Exists_cons in H as [H | H].
      * apply Occurs_in_empty in H as ->. apply Occurs_empty.
      * apply Occurs_cons. right. now apply IH.
    + destruct (Split s LF) as [|p ps] eqn:E; [now apply Split_nonempty in E|].
      intros H. apply Exists_cons in H as [H | H].
      * destruct (Split_head_prefix _ _ _ _ E) as [t ->].
        change (String c (p ++ t)) with (String c p ++ t).
        now apply Occurs_append_l.
      * apply Occurs_cons. right. apply IH. now apply Exists_cons_tl.
Qed.

Lemma no_LF_cons (a : ascii) (p : string) :
  ~ Occurs nl (String a p) -> a <> LF /\ ~ Occurs nl p.
Proof.
  intros H. split.
  - intros ->. apply H. now exists "", p.
  - intros (pre & post & ->). apply H. now exists (String a pre), post.
Qed.

(** A prefix of the content that has no line feed is a prefix of its first
    line. *)
Lemma HasPrefix_first_line (prefix s : string) :
  ~ Occurs nl prefix -> HasPrefix s prefix = true ->
  exists first rest, Split s LF = first :: rest /\ HasPrefix first prefix = true.
Proof.
  revert s. induction prefix as [|a p IH]; intros s Hnl H.
  - destruct (Split s LF) as [|first rest] eqn:E; [now apply Split_nonempty in E|].
    now exists first, rest.
  - destruct s as [|c s]; [discriminate|]. simpl in H.
    apply andb_true_iff in H as [Hc Hp]. apply Ascii.eqb_eq in Hc as ->.
    apply no_LF_cons in Hnl as [Ha Hnl].
    destruct (IH s Hnl Hp) as (first & rest & E & Hfirst).
    exists (String a first), rest. simpl.
    apply Ascii.eqb_neq in Ha. rewrite Ha, E. split; [reflexivity|].
    now rewrite Ascii.eqb_refl.
Qed.

(** What occurs in the content and has no line feed occurs in one line. *)
Lemma Occurs_content_line (substr s : string) :
  ~ Occurs nl substr -> Occurs substr s -> Exists (Occurs substr) (Split s LF).
Proof.
  intros Hnl. induction s as [|c s IH]; intros H.
  - apply Occurs_in_empty in H as ->. simpl. apply Exists_cons_hd, Occurs_refl.
  - apply Occurs_cons in H as [H | H].
    + destruct (HasPrefix_first_line _ _ Hnl H) as (first & rest & -> & Hfirst).
      now apply Exists_cons_hd, Occurs_prefix.
    + specialize (IH H). simpl. destruct (Ascii.eqb c LF).
      * now apply Exists_cons_tl.
      * destruct (Split s LF) as [|p ps]; [now apply Exists_nil in IH|].
        apply Exists_cons in IH as [IH | IH].
        -- apply Exists_cons_hd, Occurs_cons. now right.
        -- now apply Exists_cons_tl.
Qed.

(** ** The symbol locator *)

(** Every pattern contains the symbol. *)
Lemma pattern_has_symbol (symbol pattern : string) :
  In pattern (patterns symbol) -> Occurs symbol pattern.
Proof.
  unfold patterns.
  intros [<-|[<-|[<-|[<-|[<-|[<-|[<-|[]]]]]]]].
  - now exists "func ", "(".
  - now exists "func (", ")".
  - now exists "type ", " ".
  - now exists "var ", " ".
  - now exists "const ", " ".
  - now exists "", " :=".
  - now exists "", " =".
Qed.

Lemma matchPatterns_None (line : string) (pats : list string) :
  matchPatterns line pats = None <-> Forall (fun p => Index line p = -1) pats.
Proof.
  induction pats as [|p pats IH]; simpl.
  - split; [constructor | reflexivity].
  - destruct (Index line p =? -1) eqn:E; simpl.
    + apply Z.eqb_eq in E. rewrite IH. split.
      * now constructor.
      * intros H. now inversion H.
    + apply Z.eqb_neq in E. split; [discriminate|].
      intros H. inversion H. contradiction.
Qed.

(** The inner loop stops at the first pattern of the list that matches. *)
Lemma matchPatterns_first (line : string) (higher : list string)
  (pattern : string) (lower : list string) :
  Forall (fun p => Index line p = -1) higher -> Matches line pattern ->
  matchPatterns line (higher ++ pattern :: lower)%list = Some (Index line pattern).
Proof.
  intros Hhigher Hp. induction Hhigher as [|p higher Hx _ IH]; simpl.
  - apply Z.eqb_neq in Hp. now rewrite Hp.
  - rewrite Hx. simpl. exact IH.
Qed.

Lemma matchPatterns_Some (line : string) (pats : list string) (idx : Z) :
  matchPatterns line pats = Some idx ->
  exists pattern, In pattern pats /\ Matches line pattern /\ idx = Index line pattern.
Proof.
  induction pats as [|p pats IH]; simpl; [discriminate|].
  destruct (Index line p =? -1) eqn:E; simpl.
  - intros H. destruct (IH H) as (q & Hq & Hm & ->). exists q. auto.
  - intros H. injection H as <-. apply Z.eqb_neq in E. exists p. auto.
Qed.

(** No pattern matches on a line that does not contain the symbol. *)
Lemma matchPatterns_without_symbol (line symbol : string) :
  Contains line symbol = false -> matchPatterns line (patterns symbol) = None.
Proof.
  intros H. apply matchPatterns_None, Forall_forall. intros p Hp.
  apply Index_missing. intros Hocc. apply Contains_false in H. apply H.
  apply (Occurs_trans _ p _); [now apply pattern_has_symbol | exact Hocc].
Qed.

(** The outer loop passes over the lines that do not contain the symbol. *)
Lemma scanLines_skip (before rest : list string) (lineNum : Z) (symbol : string) :
  Forall (fun l => Contains l symbol = false) before ->
  scanLines (before ++ rest)%list lineNum symbol
  = scanLines rest (lineNum + len before) symbol.
Proof.
  intros H. revert lineNum.
  induction H as [|l before Hl _ IH]; intros lineNum; cbn [scanLines app].
  - f_equal. unfold len. simpl. lia.
  - rewrite (matchPatterns_without_symbol _ _ Hl), Hl, IH, len_cons.
    f_equal. lia.
Qed.

Lemma scanLines_None (lines : list string) (lineNum : Z) (symbol : string) :
  scanLines lines lineNum symbol = None <->
  Forall (fun l => Contains l symbol = false) lines.
Proof.
  split.
  - revert lineNum.
    induction lines as [|l lines IH]; intros lineNum; cbn [scanLines].
    + constructor.
    + destruct (matchPatterns l (patterns symbol)); [discriminate|].
      destruct (Contains l symbol) eqn:E; [discriminate|].
      intros H. constructor; [exact E | now apply IH in H].
  - intros H. rewrite <- (app_nil_r lines), (scanLines_skip _ _ _ _ H).
    reflexivity.
Qed.

(** The position returned on the first line that contains the symbol. *)
Lemma findSymbolPosition_first_line (content symbol : string)
  (before : list string) (line : string) (after : list string) :
  Split content LF = (before ++ line :: after)%list ->
  Forall (fun l => Contains l symbol = false) before ->
  Contains line symbol = true ->
  findSymbolPosition content symbol
  = Some (mkPosition (len before)
            match matchPatterns line (patterns symbol) with
            | Some idx => idx
            | None => Index line symbol
            end).
Proof.
  intros E Hbefore Hline. unfold findSymbolPosition.
  rewrite E, (scanLines_skip _ _ _ _ Hbefore). cbn [scanLines Z.add].
  destruct (matchPatterns line (patterns symbol)); [reflexivity|].
  now rewrite Hline.
Qed.

(** C1: on the content ["func Foo() {}\n"] and the symbol ["Foo"] the locator
    returns line 0, character 0, the index at which the matched pattern
    ["func Foo("] starts; the symbol itself is at character 5 of that line,
    and that is not what is returned. *)
Theorem findSymbolPosition_func_Foo :
  findSymbolPosition ("func Foo() {}" ++ nl) "Foo" = Some (mkPosition 0 0) /\
  Index "func Foo() {}" "func Foo(" = 0 /\
  Index "func Foo() {}" "Foo" = 5 /\
  findSymbolPosition ("func Foo() {}" ++ nl) "Foo" <> Some (mkPosition 0 5).
Proof. repeat split; try reflexivity. discriminate. Qed.

(** C5: the patterns are tried in the order function declaration, method
    receiver, type, var, const, short assignment, plain assignment; on the
    first line that contains the symbol, the position returned is the index
    of the first pattern in that order that matches on the line, wherever
    the patterns after it in the order match. *)
Theorem findSymbolPosition_pattern_priority (content symbol : string)
  (before : list string) (line : string) (after : list string)
  (higher : list string) (pattern : string) (lower : list string) :
  Split content LF = (before ++ line :: after)%list ->
  Forall (fun l => Contains l symbol = false) before ->
  patterns symbol = (higher ++ pattern :: lower)%list ->
  Forall (fun p => Index line p = -1) higher ->
  Matches line pattern ->
  patterns symbol
  = [ "func " ++ symbol ++ "("; "func (" ++ symbol ++ ")";
      "type " ++ symbol ++ " "; "var " ++ symbol ++ " ";
      "const " ++ symbol ++ " "; symbol ++ " :="; symbol ++ " =" ] /\
  findSymbolPosition content symbol
  = Some (mkPosition (len before) (Index line pattern)).
Proof.
  intros E Hbefore Hpats Hhigher Hp. split; [reflexivity|].
  assert (Hline : Contains line symbol = true).
  { apply Contains_true. apply (Occurs_trans _ pattern _).
    - apply pattern_has_symbol. rewrite Hpats. apply in_elt.
    - now apply Index_found. }
  rewrite (findSymbolPosition_first_line _ _ _ _ _ E Hbefore Hline).
  now rewrite Hpats, (matchPatterns_first _ _ _ _ Hhigher Hp).
Qed.

(** On a line where the plain assignment matches at index 0 and the function
    declaration at index 7, the function declaration wins. *)
Lemma findSymbolPosition_pattern_priority_witness :
  Index "x = 1; func x() {}" "x =" = 0 /\
  findSymbolPosition "x = 1; func x() {}" "x" = Some (mkPosition 0 7).
Proof.
  split; [reflexivity|].
  refine (proj2 (findSymbolPosition_pattern_priority
                   "x = 1; func x() {}" "x" [] "x = 1; func x() {}" []
                   [] "func x(" _ eq_refl (Forall_nil _) eq_refl
                   (Forall_nil _) _)).
  unfold Matches. vm_compute. discriminate.
Defined.

(** C2, as stated, fails: in ["// Foo\nfunc Foo() {}"] the function
    declaration matches on line 1 and no pattern matches on line 0, yet the
    position returned is on line 0, where ["Foo"] is a plain substring. *)
Lemma findSymbolPosition_not_structural_first :
  ~ structural_match_first ("// Foo" ++ nl ++ "func Foo() {}") "Foo".
Proof.
  intros H.
  destruct (H ["// Foo"] "func Foo() {}" [] eq_refl) as [character Hc].
  - repeat constructor.
  - discriminate.
  - vm_compute in Hc. discriminate.
Qed.

(** C2, amended: the position returned is on the first line that contains
    the symbol as a substring. On that line it is the index of the symbol
    when no pattern matches on the line, and the index of a pattern that
    matches on the line otherwise. *)
Theorem findSymbolPosition_line_by_line (content symbol : string)
  (before : list string) (line : string) (after : list string) :
  Split content LF = (before ++ line :: after)%list ->
  Forall (fun l => ~ Occurs symbol l) before ->
  Occurs symbol line ->
  (Forall (fun p => Index line p = -1) (patterns symbol) ->
   findSymbolPosition content symbol
   = Some (mkPosition (len before) (Index line symbol))) /\
  (Exists (Matches line) (patterns symbol) ->
   exists pattern,
     In pattern (patterns symbol) /\ Matches line pattern /\
     findSymbolPosition content symbol
     = Some (mkPosition (len before) (Index line pattern))).
Proof.
  intros E Hbefore Hline.
  assert (Hbefore' : Forall (fun l => Contains l symbol = false) before).
  { eapply Forall_impl; [|exact Hbefore]. intros l. apply Contains_false. }
  apply Contains_true in Hline.
  rewrite (findSymbolPosition_first_line _ _ _ _ _ E Hbefore' Hline).
  split.
  - intros Hnone. apply matchPatterns_None in Hnone. now rewrite Hnone.
  - intros Hsome.
    destruct (matchPatterns line (patterns symbol)) as [idx|] eqn:Em.
    + destruct (matchPatterns_Some _ _ _ Em) as (p & Hin & Hm & ->).
      now exists p.
    + apply matchPatterns_None in Em. apply Exists_exists in Hsome.
      destruct Hsome as (p & Hin & Hm).
      rewrite Forall_forall in Em. now apply Em in Hin.
Qed.

(** The comment line is the first that contains ["Foo"]: the position is the
    index of ["Foo"] in it, and the declaration below is not reached. *)
Lemma findSymbolPosition_line_by_line_witness :
  findSymbolPosition ("// Foo" ++ nl ++ "func Foo() {}") "Foo"
  = Some (mkPosition 0 3).
Proof.
  refine (proj1 (findSymbolPosition_line_by_line
                   ("// Foo" ++ nl ++ "func Foo() {}") "Foo"
                   [] "// Foo" ["func Foo() {}"] eq_refl (Forall_nil _) _) _).
  - now exists "// ", "".
  - repeat constructor.
Defined.

(** C6, as stated, fails for a name that reaches over the end of a line:
    ["Foo\n"] occurs in the content ["var x Foo\n"], and the locator returns
    [nil]. *)
Lemma findSymbolPosition_nil_although_occurs :
  ~ (findSymbolPosition ("var x Foo" ++ nl) ("Foo" ++ nl) = None <->
     ~ Occurs ("Foo" ++ nl) ("var x Foo" ++ nl)).
Proof.
  intros [H _]. apply H; [reflexivity | now exists "var x ", ""].
Qed.

(** C6, amended: for a symbol name without a line feed, the locator returns
    [nil] if and only if the name occurs nowhere in the content. *)
Theorem findSymbolPosition_nil_iff (content symbol : string) :
  ~ Occurs nl symbol ->
  (findSymbolPosition content symbol = None <-> ~ Occurs symbol content).
Proof.
  intros Hnl. unfold findSymbolPosition. cbv zeta. rewrite scanLines_None.
  split.
  - intros Hall Hocc. apply (Occurs_content_line _ _ Hnl) in Hocc.
    apply Exists_exists in Hocc as (l & Hin & Hl).
    rewrite Forall_forall in Hall. apply Hall in Hin.
    now apply Contains_false in Hin.
  - intros Hnone. apply Forall_forall. intros l Hin. apply Contains_false.
    intros Hl. apply Hnone, Occurs_line_content, Exists_exists. now exists l.
Qed.

Lemma findSymbolPosition_nil_iff_witness :
  findSymbolPosition ("func Foo() {}" ++ nl) "Missing" = None <->
  ~ Occurs "Missing" ("func Foo() {}" ++ nl).
Proof.
  apply findSymbolPosition_nil_iff. apply Index_missing. reflexivity.
Defined.

(** ** Slices and the lines of a location *)

Lemma skipn_cons_nth_error {A : Type} (xs : list A) (k : nat) (x : A) :
  nth_error xs k = Some x -> skipn k xs = x :: skipn (S k) xs.
Proof.
  revert k. induction xs as [|y xs IH]; intros [|k]; simpl; try discriminate.
  - now intros [= ->].
  - intros H. now rewrite (IH _ H).
Qed.

Lemma index_in_range (lines : list string) (i : Z) :
  0 <= i < len lines ->
  exists line,
    index lines i = Some line /\
    skipn (Z.to_nat i) lines = line :: skipn (S (Z.to_nat i)) lines.
Proof.
  intros Hi. unfold index.
  replace (0 <=? i) with true by (symmetry; apply Z.leb_le; lia).
  replace (i <? len lines) with true by (symmetry; apply Z.ltb_lt; lia).
  cbn [andb].
  destruct (nth_error lines (Z.to_nat i)) as [line|] eqn:E.
  - exists line. split; [reflexivity | now apply skipn_cons_nth_error].
  - apply nth_error_None in E. unfold len in Hi. lia.
Qed.

Lemma index_out_of_range (lines : list string) (i : Z) :
  index lines i = None -> i < 0 \/ len lines <= i.
Proof.
  intros H. destruct (Z_lt_dec i 0) as [|Hge]; [now left|].
  destruct (Z_le_dec (len lines) i) as [|Hlt]; [now right|].
  destruct (index_in_range lines i) as (line & E & _); [lia | congruence].
Qed.

Lemma joinLines_cons (line next : string) (rest : list string) :
  joinLines (line :: next :: rest) = line ++ nl ++ joinLines (next :: rest).
Proof. reflexivity. Qed.

(** The loop of [getCodeAtLocation], started at a line of the file, joins the
    lines from there to [endLine]. *)
Lemma extractLines_joins (lines : list string) (endLine : Z) (n : nat) :
  endLine < len lines ->
  forall (i : Z) (result : string),
    0 <= i -> n = Z.to_nat (endLine - i + 1) ->
    extractLines lines endLine n i result
    = Returns (result ++ joinLines (firstn n (skipn (Z.to_nat i) lines))).
Proof.
  intros Hend. induction n as [|n IH]; intros i result Hi Hn.
  - simpl. now rewrite append_nil_r.
  - cbn [extractLines].
    replace (i <=? endLine) with true by (symmetry; apply Z.leb_le; lia).
    replace (i <? len lines) with true by (symmetry; apply Z.ltb_lt; lia).
    destruct (index_in_range lines i) as (line & -> & Hskip); [lia|].
    rewrite Hskip. cbn [firstn].
    rewrite IH by lia.
    replace (Z.to_nat (i + 1)) with (S (Z.to_nat i)) by lia.
    f_equal. destruct (i <? endLine) eqn:Elt.
    + apply Z.ltb_lt in Elt.
      destruct n as [|n]; [lia|].
      destruct (index_in_range lines (i + 1)) as (next & _ & Hnext); [lia|].
      replace (Z.to_nat (i + 1)) with (S (Z.to_nat i)) in Hnext by lia.
      rewrite Hnext. cbn [firstn]. rewrite joinLines_cons.
      now rewrite !append_assoc.
    + apply Z.ltb_ge in Elt. assert (n = O) as -> by lia.
      cbn [firstn]. unfold joinLines. simpl. now rewrite !append_assoc, append_nil_r.
Qed.

(** The loop indexes [lines] below its length only: if it panics, the index
    is negative. *)
Lemma extractLines_panics (lines : list string) (endLine : Z) (n : nat) :
  forall (i : Z) (result : string) (j m : Z),
    extractLines lines endLine n i result = Panics j m ->
    i <= j /\ j < 0 /\ m = len lines.
Proof.
  induction n as [|n IH]; intros i result j m; cbn [extractLines]; [discriminate|].
  destruct (i <=? endLine); [|discriminate].
  destruct (i <? len lines) eqn:Elt.
  - apply Z.ltb_lt in Elt. destruct (index lines i) as [line|] eqn:E.
    + intros H. apply IH in H. lia.
    + intros [= <- <-]. apply index_out_of_range in E. lia.
  - intros H. apply IH in H. lia.
Qed.

(** [linesBetween] is the slice it is meant to be: inside the file it has
    [endLine - startLine + 1] lines, and its line [k] is line [startLine + k]
    of the file. *)
Lemma linesBetween_line (lines : list string) (startLine endLine k : Z) :
  0 <= startLine -> 0 <= k <= endLine - startLine ->
  nth_error (linesBetween lines startLine endLine) (Z.to_nat k)
  = nth_error lines (Z.to_nat (startLine + k)).
Proof.
  intros Hs Hk. unfold linesBetween. rewrite nth_error_firstn.
  replace (Nat.ltb _ _) with true by (symmetry; apply Nat.ltb_lt; lia).
  rewrite List.nth_error_skipn. f_equal. lia.
Qed.

Lemma linesBetween_length (lines : list string) (startLine endLine : Z) :
  0 <= startLine <= endLine -> endLine < len lines ->
  len (linesBetween lines startLine endLine) = endLine - startLine + 1.
Proof.
  intros Hs He. unfold linesBetween, len in *.
  rewrite length_firstn, length_skipn. lia.
Qed.

(** Past the end of the file [firstn] stops by itself: clamping the end line
    to the last line does not change the lines taken. *)
Lemma linesBetween_clamped (lines : list string) (startLine endLine : Z) :
  0 <= startLine < len lines ->
  linesBetween lines startLine (Z.min endLine (len lines - 1))
  = linesBetween lines startLine endLine.
Proof.
  intros Hs. unfold linesBetween.
  destruct (Z_le_dec endLine (len lines - 1)) as [Hle|Hgt].
  - now rewrite Z.min_l.
  - rewrite Z.min_r by lia.
    rewrite !firstn_all2; [reflexivity | |];
      rewrite length_skipn; unfold len in *; lia.
Qed.

(** ** [getCodeAtLocation] *)

Section CodeAtLocation.

Variable ReadFile : string -> Result string.

Lemma getCodeAtLocation_excerpt (location : Location) (content : string) :
  ReadFile (TrimPrefix (URI location) "file://") = Ok content ->
  0 <= Line (Start (LRange location)) < len (Split content LF) ->
  getCodeAtLocation ReadFile location
  = Returns (Ok (joinLines
                   (linesBetween (Split content LF)
                      (Line (Start (LRange location)))
                      (Line (End (LRange location)))))).
Proof.
  intros Hread Hstart. unfold getCodeAtLocation. rewrite Hread. cbv zeta.
  set (lines := Split content LF) in *.
  set (startLine := Line (Start (LRange location))) in *.
  set (endLine := Line (End (LRange location))).
  replace (len lines <=? startLine) with false by (symmetry; apply Z.leb_gt; lia).
  assert (Hclamp : (if len lines <=? endLine then len lines - 1 else endLine)
                   = Z.min endLine (len lines - 1)).
  { destruct (len lines <=? endLine) eqn:E.
    - apply Z.leb_le in E. lia.
    - apply Z.leb_gt in E. lia. }
  rewrite Hclamp, extractLines_joins by lia.
  rewrite <- (linesBetween_clamped lines startLine endLine) by lia.
  reflexivity.
Qed.

Lemma getCodeAtLocation_panics (location : Location) (i n : Z) :
  getCodeAtLocation ReadFile location = Panics i n ->
  Line (Start (LRange location)) <= i < 0.
Proof.
  unfold getCodeAtLocation.
  destruct (ReadFile _) as [content|err]; [|discriminate]. cbv zeta.
  destruct (len (Split content LF) <=? _); [discriminate|].
  destruct (extractLines _ _ _ _ _) as [result|j m] eqn:E; [discriminate|].
  intros [= <- <-]. apply extractLines_panics in E. lia.
Qed.

(** With a start line that is not negative the call returns. *)
Lemma getCodeAtLocation_returns (location : Location) :
  0 <= Line (Start (LRange location)) ->
  exists r, getCodeAtLocation ReadFile location = Returns r.
Proof.
  intros Hstart. destruct (getCodeAtLocation ReadFile location) as [r|i n] eqn:E.
  - now exists r.
  - apply getCodeAtLocation_panics in E. lia.
Qed.

(** C9: with the target file read, a start line at or past the number of
    lines gives the error "start line out of bounds"; a start line inside the
    file gives the lines from it to the end line, the end line taken no
    further than the last line; no index past the lines is ever used (a
    panic, if there is one, is on a negative index), and with a start line
    that is not negative the call always returns. *)
Theorem getCodeAtLocation_in_bounds (location : Location) (content : string) :
  ReadFile (TrimPrefix (URI location) "file://") = Ok content ->
  let lines := Split content LF in
  let startLine := Line (Start (LRange location)) in
  let endLine := Line (End (LRange location)) in
  (len lines <= startLine ->
   getCodeAtLocation ReadFile location = Returns (Err "start line out of bounds")) /\
  (0 <= startLine < len lines ->
   Z.min endLine (len lines - 1) < len lines /\
   getCodeAtLocation ReadFile location
   = Returns (Ok (joinLines
                    (linesBetween lines startLine
                       (Z.min endLine (len lines - 1)))))) /\
  (forall i n,
     getCodeAtLocation ReadFile location = Panics i n -> i < 0 /\ i < len lines) /\
  (0 <= startLine -> exists r, getCodeAtLocation ReadFile location = Returns r).
Proof.
  intros Hread lines startLine endLine. repeat split.
  - intros Hpast. unfold getCodeAtLocation. rewrite Hread. cbv zeta.
    fold lines startLine.
    now replace (len lines <=? startLine) with true
      by (symmetry; apply Z.leb_le; lia).
  - lia.
  - rewrite linesBetween_clamped by assumption.
    now apply getCodeAtLocation_excerpt.
  - apply getCodeAtLocation_panics in H. lia.
  - apply getCodeAtLocation_panics in H. pose proof (len_nonneg lines). lia.
  - apply getCodeAtLocation_returns.
Qed.

End CodeAtLocation.

(** In [/a.go], of three lines, lines 1 to 10 are lines 1 and 2, and nothing
    starts at line 3. *)
Lemma getCodeAtLocation_in_bounds_witness :
  getCodeAtLocation Demo.ReadFile
    (mkLocation "file:///a.go" (mkRange (mkPosition 1 0) (mkPosition 10 0)))
  = Returns (Ok ("var x = Foo" ++ nl)) /\
  getCodeAtLocation Demo.ReadFile
    (mkLocation "file:///a.go" (mkRange (mkPosition 3 0) (mkPosition 3 0)))
  = Returns (Err "start line out of bounds").
Proof.
  split.
  - refine (proj2 (proj1 (proj2 (getCodeAtLocation_in_bounds Demo.ReadFile
      (mkLocation "file:///a.go" (mkRange (mkPosition 1 0) (mkPosition 10 0)))
      Demo.source eq_refl)) _)).
    vm_compute. split; [discriminate | reflexivity].
  - refine (proj1 (getCodeAtLocation_in_bounds Demo.ReadFile
      (mkLocation "file:///a.go" (mkRange (mkPosition 3 0) (mkPosition 3 0)))
      Demo.source eq_refl) _).
    vm_compute. discriminate.
Defined.

(** ** The report of [GetCodeDefinitions] *)

Lemma parseInt_formatInt (z : Z) : parseInt (formatInt z) = Some z.
Proof.
  unfold parseInt, formatInt. rewrite NilZero.isi.
  - simpl. now rewrite DecimalZ.of_to.
  - destruct z; simpl; try discriminate.
    intros [= H]. now apply DecimalPos.Unsigned.to_uint_nonnil in H.
  - destruct z; simpl; try discriminate.
    intros [= H]. now apply DecimalPos.Unsigned.to_uint_nonnil in H.
Qed.

Lemma int_add_in_range (x : Z) : 0 <= x < MaxInt -> int_add x 1 = x + 1.
Proof.
  unfold int_add, wrap64, MaxInt. intros H.
  rewrite Z.mod_small; lia.
Qed.

Lemma textOf_cons (entry : string) (entries : list string) :
  textOf (entry :: entries) = entry ++ textOf entries.
Proof. reflexivity. Qed.

Section Reports.

Context {Client : Type}.
Variable goplsClient : GoplsClientOps Client.
Variable ReadFile : string -> Result string.
Variables filePath fileContent : string.

Lemma getDefinitionAtPosition_first (position : Position) (c c' : Client)
  (first : Location) (others : list Location) :
  GoToDefinition goplsClient ("file://" ++ filePath)
    (Line position) (Character position) c = (c', Ok (first :: others)) ->
  getDefinitionAtPosition goplsClient filePath position c = (c', Ok first).
Proof. intros H. unfold getDefinitionAtPosition. cbv zeta. now rewrite H. Qed.

Lemma getDefinitionAtPosition_Ok (position : Position) (c c' : Client)
  (definition : Location) :
  getDefinitionAtPosition goplsClient filePath position c = (c', Ok definition) ->
  exists others,
    GoToDefinition goplsClient ("file://" ++ filePath)
      (Line position) (Character position) c = (c', Ok (definition :: others)).
Proof.
  unfold getDefinitionAtPosition. cbv zeta.
  destruct (GoToDefinition _ _ _ _ _) as [c0 [[|first others]|err]];
    intros H; inversion H; subst.
  now exists others.
Qed.

(** What one iteration writes when the definition request gave a location
    and reading its lines returned [r]. *)
Lemma lookupSymbol_definition (symbol : string) (position : Position)
  (c c' : Client) (definition : Location) (r : Result string) (results : string) :
  findSymbolPosition fileContent symbol = Some position ->
  getDefinitionAtPosition goplsClient filePath position c = (c', Ok definition) ->
  getCodeAtLocation ReadFile definition = Returns r ->
  lookupSymbol goplsClient ReadFile filePath fileContent symbol c results
  = Returns (c', results
                 ++ locationBlock symbol (URI definition)
                      (int_add (Line (Start (LRange definition))) 1)
                      (int_add (Character (Start (LRange definition))) 1)
                 ++ match r with
                    | Ok defContent =>
                        if (defContent =? "")%string then ""
                        else codeBlock defContent
                    | Err _ => ""
                    end
                 ++ nl).
Proof.
  intros Hpos Hdef Hcode. unfold lookupSymbol. rewrite Hpos, Hdef, Hcode.
  cbv zeta. unfold locationBlock, codeBlock. do 2 f_equal.
  destruct r as [defContent|err]; [destruct (defContent =? "")%string|];
    cbn [negb]; now rewrite !append_assoc.
Qed.

(** One iteration writes one entry, whatever the outcome for the symbol. *)
Lemma lookupSymbol_entry (symbol : string) (c : Client) (results : string) :
  answersWithLineNumbers goplsClient ->
  exists c' entry,
    lookupSymbol goplsClient ReadFile filePath fileContent symbol c results
    = Returns (c', results ++ entry) /\
    SymbolEntry goplsClient filePath fileContent symbol c c' entry.
Proof.
  intros Hanswers.
  destruct (findSymbolPosition fileContent symbol) as [position|] eqn:Hpos.
  - destruct (GoToDefinition goplsClient ("file://" ++ filePath)
                (Line position) (Character position) c)
      as [c' [[|first others]|err]] eqn:Hgo.
    + exists c', (failureEntry symbol "no definition found"). split.
      * unfold lookupSymbol, getDefinitionAtPosition. cbv zeta.
        now rewrite Hpos, Hgo.
      * now apply (EntryNoDefinition _ _ _ _ _ position).
    + destruct (getCodeAtLocation_returns ReadFile first) as [r Hr].
      { exact (Hanswers _ _ _ _ _ _ _ Hgo). }
      eexists c', _. split.
      * apply (lookupSymbol_definition _ position _ _ first r); trivial.
        now apply (getDefinitionAtPosition_first _ _ _ _ others).
      * apply (EntryDefinition _ _ _ _ _ position _ first others); trivial.
        destruct r as [defContent|err]; [destruct (defContent =? "")%string|];
          eauto.
    + exists c', (failureEntry symbol err). split.
      * unfold lookupSymbol, getDefinitionAtPosition. cbv zeta.
        now rewrite Hpos, Hgo.
      * now apply (EntryRequestFailed _ _ _ _ _ position).
  - exists c, (notFoundEntry symbol). split.
    + unfold lookupSymbol. now rewrite Hpos.
    + now constructor.
Qed.

Lemma lookupSymbols_entries (symbols : list string) :
  answersWithLineNumbers goplsClient ->
  forall (c : Client) (results : string),
  exists c' entries,
    lookupSymbols goplsClient ReadFile filePath fileContent symbols c results
    = Returns (c', results ++ textOf entries) /\
    ReportEntries goplsClient filePath fileContent symbols c c' entries.
Proof.
  intros Hanswers. induction symbols as [|symbol symbols IH]; intros c results.
  - exists c, []. split; [simpl; now rewrite append_nil_r | constructor].
  - destruct (lookupSymbol_entry symbol c results Hanswers)
      as (c1 & entry & Hstep & Hentry).
    destruct (IH c1 (results ++ entry)) as (c2 & entries & Hrest & Hentries).
    exists c2, (entry :: entries). split.
    + cbn [lookupSymbols]. rewrite Hstep, Hrest, textOf_cons.
      now rewrite append_assoc.
    + now apply (EntriesCons _ _ _ _ _ _ c1).
Qed.

Lemma ReportEntries_length (symbols : list string) (c c' : Client)
  (entries : list string) :
  ReportEntries goplsClient filePath fileContent symbols c c' entries ->
  List.length entries = List.length symbols.
Proof. induction 1; simpl; congruence. Qed.

End Reports.

Section ReportClaims.

Context {Client : Type}.
Variable goplsClient : GoplsClientOps Client.
Variable ReadFile : string -> Result string.

(** C3: once the workspace is initialized and the file is read, and with a
    client whose locations start at a line number, [GetCodeDefinitions]
    returns a report and no error, for every list of symbols. The report is
    the header followed by one entry for each requested symbol, in order: the
    "Not found in file" line when the locator finds no position, the
    "Error getting definition" line when the request fails or gives no
    location, the location block otherwise. No outcome for one symbol stops
    the loop. *)
Theorem GetCodeDefinitions_reports_every_symbol (filePath : string)
  (symbols : list string) (c c1 : Client) (content : string) :
  answersWithLineNumbers goplsClient ->
  initializeWorkspace goplsClient ReadFile filePath c = (c1, None) ->
  ReadFile filePath = Ok content ->
  exists c2 entries,
    GetCodeDefinitions goplsClient ReadFile filePath symbols c
    = Returns (c2, Ok (reportHeader ++ textOf entries)) /\
    ReportEntries goplsClient filePath content symbols c1 c2 entries /\
    List.length entries = List.length symbols.
Proof.
  intros Hanswers Hinit Hread.
  destruct (lookupSymbols_entries goplsClient ReadFile filePath content symbols
              Hanswers c1 reportHeader) as (c2 & entries & Hloop & Hentries).
  exists c2, entries. repeat split.
  - unfold GetCodeDefinitions. rewrite Hinit, Hread. cbv zeta.
    fold reportHeader. now rewrite Hloop.
  - exact Hentries.
  - exact (ReportEntries_length _ _ _ _ _ _ _ Hentries).
Qed.

(** C7: when the definition request for a symbol gives a list of locations
    that is not empty, the definition is the first of them; with its target
    file read and its start line inside that file, the lines read are those
    of the target file from the start line to the end line, both included;
    and this excerpt, when it is not empty, is the "Code:" part of the block
    written for the symbol. *)
Theorem first_location_excerpt (filePath fileContent symbol : string)
  (position : Position) (c c' : Client) (first : Location)
  (others : list Location) (target results : string) :
  findSymbolPosition fileContent symbol = Some position ->
  GoToDefinition goplsClient ("file://" ++ filePath)
    (Line position) (Character position) c = (c', Ok (first :: others)) ->
  ReadFile (TrimPrefix (URI first) "file://") = Ok target ->
  0 <= Line (Start (LRange first)) < len (Split target LF) ->
  let excerpt :=
    joinLines (linesBetween (Split target LF)
                 (Line (Start (LRange first))) (Line (End (LRange first)))) in
  let block :=
    locationBlock symbol (URI first)
      (int_add (Line (Start (LRange first))) 1)
      (int_add (Character (Start (LRange first))) 1) in
  getDefinitionAtPosition goplsClient filePath position c = (c', Ok first) /\
  getCodeAtLocation ReadFile first = Returns (Ok excerpt) /\
  (excerpt <> "" ->
   lookupSymbol goplsClient ReadFile filePath fileContent symbol c results
   = Returns (c', results ++ block ++ codeBlock excerpt ++ nl)) /\
  (excerpt = "" ->
   lookupSymbol goplsClient ReadFile filePath fileContent symbol c results
   = Returns (c', results ++ block ++ nl)).
Proof.
  intros Hpos Hgo Hread Hstart excerpt block.
  pose proof (getDefinitionAtPosition_first goplsClient filePath
                position c c' first others Hgo) as Hdef.
  pose proof (getCodeAtLocation_excerpt ReadFile first target Hread Hstart)
    as Hcode.
  fold excerpt in Hcode.
  pose proof (lookupSymbol_definition goplsClient ReadFile filePath fileContent
                symbol position c c' first (Ok excerpt) results Hpos Hdef Hcode)
    as Hblock.
  cbv beta iota in Hblock. fold block in Hblock. repeat split; trivial.
  - intros Hne. apply String.eqb_neq in Hne. now rewrite Hne in Hblock.
  - intros He. apply String.eqb_eq in He. now rewrite He in Hblock.
Qed.

(** C10: in the block written for a symbol whose definition was found, with
    the line and the character of the definition's start in the range of a
    position ([0] to [MaxInt - 1]), the numbers printed after "Line:" and
    "Character:" are that line plus one and that character plus one. *)
Theorem success_block_one_based (filePath fileContent symbol : string)
  (position : Position) (c c' : Client) (definition : Location)
  (results : string) :
  findSymbolPosition fileContent symbol = Some position ->
  getDefinitionAtPosition goplsClient filePath position c = (c', Ok definition) ->
  0 <= Line (Start (LRange definition)) < MaxInt ->
  0 <= Character (Start (LRange definition)) < MaxInt ->
  exists code,
    lookupSymbol goplsClient ReadFile filePath fileContent symbol c results
    = Returns (c', results
                   ++ "Symbol '" ++ symbol ++ "':" ++ nl
                   ++ "  Location: " ++ URI definition ++ nl
                   ++ "  Line: "
                   ++ formatInt (Line (Start (LRange definition)) + 1)
                   ++ ", Character: "
                   ++ formatInt (Character (Start (LRange definition)) + 1)
                   ++ nl ++ code ++ nl) /\
    (code = "" \/ exists excerpt, code = codeBlock excerpt) /\
    parseInt (formatInt (Line (Start (LRange definition)) + 1))
    = Some (Line (Start (LRange definition)) + 1) /\
    parseInt (formatInt (Character (Start (LRange definition)) + 1))
    = Some (Character (Start (LRange definition)) + 1).
Proof.
  intros Hpos Hdef Hline Hchar.
  destruct (getCodeAtLocation_returns ReadFile definition) as [r Hr]; [lia|].
  pose proof (lookupSymbol_definition goplsClient ReadFile filePath fileContent
                symbol position c c' definition r results Hpos Hdef Hr)
    as Hblock.
  rewrite (int_add_in_range _ Hline), (int_add_in_range _ Hchar) in Hblock.
  exists (match r with
          | Ok defContent =>
              if (defContent =? "")%string then "" else codeBlock defContent
          | Err _ => ""
          end).
  split; [|split; [|split; apply parseInt_formatInt]].
  - rewrite Hblock. unfold locationBlock. now rewrite !append_assoc.
  - destruct r as [defContent|err]; [destruct (defContent =? "")%string|];
      eauto.
Qed.

End ReportClaims.

(** A run on [/a.go] for a symbol that is there and one that is not. *)
Lemma GetCodeDefinitions_reports_every_symbol_witness :
  exists c2 entries,
    GetCodeDefinitions Demo.client Demo.ReadFile "/a.go" ["Foo"; "Missing"] false
    = Returns (c2, Ok (reportHeader ++ textOf entries)) /\
    ReportEntries Demo.client "/a.go" Demo.source ["Foo"; "Missing"]
      true c2 entries /\
    List.length entries = 2%nat.
Proof.
  apply (GetCodeDefinitions_reports_every_symbol Demo.client Demo.ReadFile
           "/a.go" ["Foo"; "Missing"] false true Demo.source).
  - intros uri line character c c' first others H.
    injection H as _ <- _. simpl. lia.
  - reflexivity.
  - reflexivity.
Defined.

(** The definition of [Foo] in [/a.go] is line 0 of [/a.go]. *)
Lemma first_location_excerpt_witness :
  getDefinitionAtPosition Demo.client "/a.go" (mkPosition 0 0) true
  = (true, Ok Demo.fooLocation) /\
  getCodeAtLocation Demo.ReadFile Demo.fooLocation
  = Returns (Ok "func Foo() {}").
Proof.
  pose proof (first_location_excerpt Demo.client Demo.ReadFile
                "/a.go" Demo.source "Foo" (mkPosition 0 0) true true
                Demo.fooLocation [] Demo.source "" eq_refl eq_refl eq_refl)
    as H.
  cbv zeta in H. destruct H as (Hdef & Hcode & _).
  - vm_compute. split; [discriminate | reflexivity].
  - split; [exact Hdef | exact Hcode].
Defined.

(** The start of [Foo], line 0 and character 5, is printed as line 1 and
    character 6. *)
Lemma success_block_one_based_witness :
  exists code,
    lookupSymbol Demo.client Demo.ReadFile "/a.go" Demo.source "Foo" true ""
    = Returns (true, "Symbol 'Foo':" ++ nl
                     ++ "  Location: file:///a.go" ++ nl
                     ++ "  Line: 1, Character: 6" ++ nl ++ code ++ nl).
Proof.
  destruct (success_block_one_based Demo.client Demo.ReadFile
              "/a.go" Demo.source "Foo" (mkPosition 0 0) true true
              Demo.fooLocation "" eq_refl eq_refl)
    as (code & H & _).
  - vm_compute. split; [discriminate | reflexivity].
  - vm_compute. split; [discriminate | reflexivity].
  - exists code. exact H.
Defined.

(** ** The document URI *)

Lemma drop_append (prefix s : string) : drop (String.length prefix) (prefix ++ s) = s.
Proof. induction prefix as [|p prefix IH]; simpl; [reflexivity | exact IH]. Qed.

(** Taking a prefix off after putting it on gives the string back. *)
Lemma TrimPrefix_append (prefix s : string) : TrimPrefix (prefix ++ s) prefix = s.
Proof.
  unfold TrimPrefix.
  replace (HasPrefix (prefix ++ s) prefix) with true
    by (symmetry; apply HasPrefix_iff; now exists s).
  apply drop_append.
Qed.

Lemma sentFor_refl (uri : string) (log : list Call) : sentFor uri log log.
Proof. exists []. split; [now rewrite app_nil_r | constructor]. Qed.

Lemma sentFor_trans (uri : string) (log1 log2 log3 : list Call) :
  sentFor uri log1 log2 -> sentFor uri log2 log3 -> sentFor uri log1 log3.
Proof.
  intros (calls1 & -> & H1) (calls2 & -> & H2).
  exists (calls1 ++ calls2)%list. split.
  - now rewrite app_assoc.
  - now apply Forall_app.
Qed.

Lemma sentFor_call (uri : string) (log : list Call) (call : Call) :
  (forall u, documentURI call = Some u -> u = uri) ->
  sentFor uri log (log ++ [call])%list.
Proof. intros H. exists [call]. split; [reflexivity | now constructor]. Qed.

Section Recording.

Context {Client : Type}.
Variable ops : GoplsClientOps Client.
Variable ReadFile : string -> Result string.
Variable filePath : string.

Local Abbreviation uri := ("file://" ++ filePath).

Lemma initializeWorkspace_calls (s s' : Client * list Call) (err : option error) :
  initializeWorkspace (recording ops) ReadFile filePath s = (s', err) ->
  sentFor uri (snd s) (snd s') /\
  (err = None ->
   exists content,
     ReadFile filePath = Ok content /\
     In (CallDidOpen uri "go" content) (snd s')).
Proof.
  unfold initializeWorkspace. cbn [recording initialized Initialize DidOpen].
  assert (Hinit : forall s1 e,
             (if negb (initialized ops (fst s))
              then (let '(c, err0) := Initialize ops (fst s) in
                    ((c, (snd s ++ [CallInitialize])%list), err0))
              else (s, None)) = (s1, e) ->
             sentFor uri (snd s) (snd s1)).
  { intros s1 e. destruct (negb _).
    - destruct (Initialize ops (fst s)) as [c0 e0]. intros [= <- _].
      apply sentFor_call. discriminate.
    - intros [= <- _]. apply sentFor_refl. }
  destruct (if negb _ then _ else _) as [s1 e1] eqn:E1.
  specialize (Hinit _ _ eq_refl). clear E1.
  destruct e1 as [e1|].
  { intros [= <- <-]. split; [exact Hinit | discriminate]. }
  destruct (ReadFile filePath) as [content|e2].
  2: { intros [= <- <-]. split; [exact Hinit | discriminate]. }
  destruct (DidOpen ops uri "go" content (fst s1)) as [c2 e2].
  assert (Hopen : sentFor uri (snd s)
                    (snd s1 ++ [CallDidOpen uri "go" content])%list).
  { eapply sentFor_trans; [exact Hinit|]. apply sentFor_call.
    now intros u [= <-]. }
  destruct e2 as [e2|]; intros [= <- <-]; cbn [snd]; split; trivial.
  - discriminate.
  - intros _. exists content. split; [reflexivity|].
    apply in_or_app. right. now left.
Qed.

Lemma getDefinitionAtPosition_calls (position : Position)
  (s s' : Client * list Call) (r : Result Location) :
  getDefinitionAtPosition (recording ops) filePath position s = (s', r) ->
  sentFor uri (snd s) (snd s').
Proof.
  unfold getDefinitionAtPosition. cbn [recording GoToDefinition].
  destruct (GoToDefinition ops uri _ _ (fst s)) as [c0 [[|first others]|err]];
    intros [= <- _]; cbn [snd]; apply sentFor_call; now intros u [= <-].
Qed.

Lemma lookupSymbol_calls (fileContent symbol : string)
  (s s' : Client * list Call) (results results' : string) :
  lookupSymbol (recording ops) ReadFile filePath fileContent symbol s results
  = Returns (s', results') ->
  sentFor uri (snd s) (snd s').
Proof.
  unfold lookupSymbol.
  destruct (findSymbolPosition fileContent symbol) as [position|].
  - destruct (getDefinitionAtPosition _ _ _ _) as [s1 r] eqn:E.
    apply getDefinitionAtPosition_calls in E.
    destruct r as [definition|err].
    + destruct (getCodeAtLocation ReadFile definition); [|discriminate].
      now intros [= <- _].
    + now intros [= <- _].
  - intros [= <- _]. apply sentFor_refl.
Qed.

Lemma lookupSymbols_calls (fileContent : string) (symbols : list string) :
  forall (s s' : Client * list Call) (results results' : string),
    lookupSymbols (recording ops) ReadFile filePath fileContent symbols s results
    = Returns (s', results') ->
    sentFor uri (snd s) (snd s').
Proof.
  induction symbols as [|symbol symbols IH]; intros s s' results results';
    cbn [lookupSymbols].
  - intros [= <- _]. apply sentFor_refl.
  - destruct (lookupSymbol _ _ _ _ _ _ _) as [[s1 results1]|] eqn:E;
      [|discriminate].
    intros H. eapply sentFor_trans.
    + exact (lookupSymbol_calls _ _ _ _ _ _ E).
    + exact (IH _ _ _ _ H).
Qed.

(** C8: the URI of the document in every call that [GetCodeDefinitions]
    makes for the file [filePath] ([DidOpen], [GoToDefinition]) is
    ["file://"] followed by [filePath], and a run that gives a report has
    opened the document under that URI; taking the prefix ["file://"] off
    that URI, as [getCodeAtLocation] does, gives [filePath] back, so that for
    a location with that URI [getCodeAtLocation] depends on the files only
    through the file [filePath]. *)
Theorem document_uri_round_trip :
  TrimPrefix ("file://" ++ filePath) "file://" = filePath /\
  (forall symbols s s' r,
     GetCodeDefinitions (recording ops) ReadFile filePath symbols s
     = Returns (s', r) ->
     sentFor ("file://" ++ filePath) (snd s) (snd s') /\
     (forall report, r = Ok report ->
        exists content,
          ReadFile filePath = Ok content /\
          In (CallDidOpen ("file://" ++ filePath) "go" content) (snd s'))) /\
  (forall (ReadFile' : string -> Result string) (location : Location),
     URI location = "file://" ++ filePath ->
     ReadFile' filePath = ReadFile filePath ->
     getCodeAtLocation ReadFile' location = getCodeAtLocation ReadFile location).
Proof.
  split; [apply TrimPrefix_append|]. split.
  - intros symbols s s' r. unfold GetCodeDefinitions.
    destruct (initializeWorkspace _ _ _ _) as [s1 err] eqn:Einit.
    apply initializeWorkspace_calls in Einit as [Hinit Hopen].
    destruct err as [err|].
    { intros [= <- <-]. split; [exact Hinit | discriminate]. }
    destruct (ReadFile filePath) as [content|err] eqn:Eread.
    2: { intros [= <- <-]. split; [exact Hinit | discriminate]. }
    cbv zeta.
    destruct (lookupSymbols _ _ _ _ _ _ _) as [[s2 result]|] eqn:Eloop;
      [|discriminate].
    intros [= <- <-]. apply lookupSymbols_calls in Eloop.
    split; [now apply (sentFor_trans _ _ (snd s1))|].
    intros report _. destruct (Hopen eq_refl) as (content' & Hc & Hin).
    exists content'. split; [exact Hc|].
    destruct Eloop as (calls & -> & _). apply in_or_app. now left.
  - intros ReadFile' location Huri Hsame. unfold getCodeAtLocation.
    now rewrite Huri, TrimPrefix_append, Hsame.
Qed.

End Recording.

(** The calls of a run on [/a.go]: the handshake, the document opened, one
    definition request. *)
Lemma document_uri_round_trip_witness :
  TrimPrefix "file:///a.go" "file://" = "/a.go" /\
  sentFor "file:///a.go" []
    [CallInitialize; CallDidOpen "file:///a.go" "go" Demo.source;
     CallGoToDefinition "file:///a.go" 0 0].
Proof.
  destruct (document_uri_round_trip Demo.client Demo.ReadFile "/a.go")
    as (Htrim & Hcalls & _).
  split; [exact Htrim|].
  exact (proj1 (Hcalls ["Foo"] (false, []) _ _ eq_refl)).
Defined.

(** ** The handshake *)

Lemma Initialize_handshake (s : Session.Session) :
  Session.state s = Session.Uninitialized ->
  Session.state (fst (Session.Initialize Session.InitializeResult s))
  = Session.Ready /\
  snd (Session.Initialize Session.InitializeResult s) = None.
Proof. intros H. unfold Session.Initialize. now rewrite H. Qed.

(** C4: [Initialize] on a Session that is [Ready] fails with
    [AlreadyInitializedError], whatever the subprocess would answer, and
    leaves the Session as it is: no second [initialize] Request is sent. *)
Theorem Initialize_when_Ready_fails (response : Session.InitializeResponse)
  (s : Session.Session) :
  Session.state s = Session.Ready ->
  Session.Initialize response s = (s, Some Session.AlreadyInitializedError).
Proof. intros H. unfold Session.Initialize. now rewrite H. Qed.

(** A new Session, initialized once with success and then once more. *)
Lemma Initialize_when_Ready_fails_witness :
  let ready := fst (Session.Initialize Session.InitializeResult Session.new) in
  Session.sent ready
  = [Session.Request 1 "initialize"; Session.Notification "initialized"] /\
  Session.Initialize Session.InitializeResult ready
  = (ready, Some Session.AlreadyInitializedError).
Proof.
  split; [reflexivity|].
  apply (Initialize_when_Ready_fails Session.InitializeResult). reflexivity.
Defined.

(** * Further properties of the code *)

(** ** Where the locator points *)

Lemma Index_StartsAt (s substr : string) :
  Index s substr <> -1 -> StartsAt s substr (Index s substr).
Proof.
  induction s as [|c s IH]; cbn [Index].
  - destruct (HasPrefix "" substr) eqn:E; [|congruence].
    intros _. apply HasPrefix_iff in E as [t Ht]. now exists "", t.
  - destruct (HasPrefix (String c s) substr) eqn:E.
    + intros _. apply HasPrefix_iff in E as [t Ht]. now exists "", t.
    + destruct (Index s substr =? -1) eqn:Ei; [congruence|].
      apply Z.eqb_neq in Ei. intros _.
      destruct (IH Ei) as (pre & post & -> & Hlen).
      exists (String c pre), post. split; [reflexivity|].
      cbn [String.length]. lia.
Qed.

Lemma string_length_append (a b : string) :
  String.length (a ++ b) = (String.length a + String.length b)%nat.
Proof. induction a as [|c a IH]; cbn; [reflexivity | now rewrite IH]. Qed.

Lemma StartsAt_shorter (s a b : string) (i : Z) :
  StartsAt s (a ++ b) i -> StartsAt s a i.
Proof.
  intros (pre & post & -> & Hlen). exists pre, (b ++ post).
  now rewrite append_assoc.
Qed.

(** Every pattern is a keyword, or nothing, then the symbol, then a
    suffix. *)
Lemma pattern_keyword (symbol pattern : string) :
  In pattern (patterns symbol) ->
  exists keyword suffix,
    In keyword keywords /\ pattern = (keyword ++ symbol) ++ suffix.
Proof.
  unfold patterns, keywords.
  intros [<-|[<-|[<-|[<-|[<-|[<-|[<-|[]]]]]]]].
  - exists "func ", "(". split; [simpl; tauto | now rewrite append_assoc].
  - exists "func (", ")". split; [simpl; tauto | now rewrite append_assoc].
  - exists "type ", " ". split; [simpl; tauto | now rewrite append_assoc].
  - exists "var ", " ". split; [simpl; tauto | now rewrite append_assoc].
  - exists "const ", " ". split; [simpl; tauto | now rewrite append_assoc].
  - exists "", " :=". split; [simpl; tauto | reflexivity].
  - exists "", " =". split; [simpl; tauto | reflexivity].
Qed.

Lemma matchPatterns_skip (line : string) (higher rest : list string) :
  Forall (fun p => Index line p = -1) higher ->
  matchPatterns line (higher ++ rest)%list = matchPatterns line rest.
Proof.
  induction 1 as [|p higher Hp _ IH]; [reflexivity|].
  cbn [app matchPatterns]. now rewrite Hp.
Qed.

(** What the outer loop returns, it returns on a line it has reached. *)
Lemma scanLines_Some (lines : list string) (lineNum : Z) (symbol : string)
  (p : Position) :
  scanLines lines lineNum symbol = Some p ->
  exists before line after,
    lines = (before ++ line :: after)%list /\
    Forall (fun l => Contains l symbol = false) before /\
    Contains line symbol = true /\
    Line p = lineNum + len before /\
    Character p = match matchPatterns line (patterns symbol) with
                  | Some idx => idx
                  | None => Index line symbol
                  end.
Proof.
  revert lineNum. induction lines as [|l lines IH]; intros lineNum;
    cbn [scanLines]; [discriminate|].
  destruct (Contains l symbol) eqn:El.
  - intros H. exists [], l, lines. repeat split; trivial.
    + destruct (matchPatterns l (patterns symbol)); injection H as <-;
        cbn; unfold len; simpl; lia.
    + destruct (matchPatterns l (patterns symbol)); now injection H as <-.
  - rewrite (matchPatterns_without_symbol _ _ El). intros H.
    destruct (IH _ H) as (before & line & after & -> & Hb & Hl & HL & HC).
    exists (l :: before), line, after. repeat split; trivial.
    + now constructor.
    + rewrite HL, len_cons. lia.
Qed.

Lemma index_middle {A : Type} (before : list A) (x : A) (after : list A) :
  index (before ++ x :: after)%list (len before) = Some x.
Proof.
  unfold index, len. rewrite length_app. cbn [List.length].
  replace (0 <=? _) with true by (symmetry; apply Z.leb_le; lia).
  replace (_ <? _) with true by (symmetry; apply Z.ltb_lt; lia).
  cbn [andb]. rewrite Nat2Z.id, nth_error_app2 by lia.
  now rewrite Nat.sub_diag.
Qed.

(** X1: a position returned by the locator is a position of the content: its
    line is a line of the content, and at its character that line has the
    symbol, or one of the five keywords followed by the symbol. The symbol
    itself is then at the character plus the length of the keyword. *)
Theorem findSymbolPosition_points_at_match (content symbol : string)
  (p : Position) :
  findSymbolPosition content symbol = Some p ->
  exists line keyword,
    index (Split content LF) (Line p) = Some line /\
    In keyword keywords /\
    StartsAt line (keyword ++ symbol) (Character p) /\
    StartsAt line symbol
      (Character p + Z.of_nat (String.length keyword)).
Proof.
  unfold findSymbolPosition. cbv zeta. intros H.
  destruct (scanLines_Some _ _ _ _ H)
    as (before & line & after & E & _ & Hline & HL & HC).
  assert (Hat : exists keyword,
             In keyword keywords /\
             StartsAt line (keyword ++ symbol) (Character p)).
  { destruct (matchPatterns line (patterns symbol)) as [idx|] eqn:Em.
    - destruct (matchPatterns_Some _ _ _ Em) as (pattern & Hin & Hm & ->).
      destruct (pattern_keyword _ _ Hin) as (keyword & suffix & Hk & ->).
      exists keyword. split; [exact Hk|]. rewrite HC.
      apply (StartsAt_shorter _ _ suffix). now apply Index_StartsAt.
    - exists "". split; [simpl; tauto|]. rewrite HC. cbn [append].
      apply Index_StartsAt, Index_found. now apply Contains_true. }
  destruct Hat as (keyword & Hk & Hs).
  exists line, keyword. repeat split; trivial.
  - rewrite E, HL. cbn [Z.add]. apply index_middle.
  - destruct Hs as (pre & post & -> & Hlen).
    exists (pre ++ keyword), post. split.
    + now rewrite !append_assoc.
    + rewrite <- Hlen, string_length_append. lia.
Qed.

Lemma findSymbolPosition_points_at_match_witness :
  exists line keyword,
    index (Split ("// doc" ++ nl ++ "type Foo struct") LF) 1 = Some line /\
    In keyword keywords /\
    StartsAt line (keyword ++ "Foo") 0 /\
    StartsAt line "Foo" (0 + Z.of_nat (String.length keyword)).
Proof.
  exact (findSymbolPosition_points_at_match
           ("// doc" ++ nl ++ "type Foo struct") "Foo" (mkPosition 1 0) eq_refl).
Defined.

(** X2: when none of the five keyword patterns matches on the line of the
    position returned, the symbol itself starts at the character returned. *)
Theorem findSymbolPosition_exact (content symbol : string) (p : Position)
  (line : string) :
  findSymbolPosition content symbol = Some p ->
  index (Split content LF) (Line p) = Some line ->
  Forall (fun pattern => Index line pattern = -1) (firstn 5 (patterns symbol)) ->
  StartsAt line symbol (Character p).
Proof.
  unfold findSymbolPosition. cbv zeta. intros H Hline Hnone.
  destruct (scanLines_Some _ _ _ _ H)
    as (before & line' & after & E & _ & Hc & HL & HC).
  assert (line' = line) as ->.
  { rewrite E, HL in Hline. cbn [Z.add] in Hline.
    rewrite index_middle in Hline. congruence. }
  rewrite HC.
  change (patterns symbol)
    with (app (firstn 5 (patterns symbol)) [symbol ++ " :="; symbol ++ " ="]).
  rewrite (matchPatterns_skip _ _ _ Hnone).
  destruct (matchPatterns line [symbol ++ " :="; symbol ++ " ="])
    as [idx|] eqn:Em.
  - destruct (matchPatterns_Some _ _ _ Em) as (pattern & Hin & Hm & ->).
    destruct Hin as [<-|[<-|[]]];
      eapply StartsAt_shorter; apply Index_StartsAt; exact Hm.
  - apply Index_StartsAt, Index_found. now apply Contains_true.
Qed.

Lemma findSymbolPosition_exact_witness :
  StartsAt "  count := 0" "count" 2.
Proof.
  apply (findSymbolPosition_exact "  count := 0" "count" (mkPosition 0 2)).
  - reflexivity.
  - reflexivity.
  - repeat constructor.
Defined.

(** X3: the empty symbol name is never reported as not found: the locator
    answers for it on line 0, whatever the content. *)
Theorem findSymbolPosition_empty_symbol (content : string) :
  exists character,
    findSymbolPosition content "" = Some (mkPosition 0 character).
Proof.
  unfold findSymbolPosition. cbv zeta.
  destruct (Split content LF) as [|line rest] eqn:E;
    [now apply Split_nonempty in E|].
  cbn [scanLines].
  destruct (matchPatterns line (patterns "")) as [idx|]; [now exists idx|].
  assert (Contains line "" = true) as ->
      by (apply Contains_true, Occurs_empty).
  now exists (Index line "").
Qed.

(** ** Lines split and joined *)

Lemma joinLines_head (c : ascii) (piece : string) (pieces : list string) :
  joinLines (String c piece :: pieces) = String c (joinLines (piece :: pieces)).
Proof. destruct pieces; reflexivity. Qed.

(** Joining the lines of a content gives the content back. *)
Lemma joinLines_Split (s : string) : joinLines (Split s LF) = s.
Proof.
  induction s as [|c s IH]; [reflexivity|]. cbn [Split].
  destruct (Split s LF) as [|piece pieces] eqn:E;
    [now apply Split_nonempty in E|].
  destruct (Ascii.eqb c LF) eqn:Ec.
  - apply Ascii.eqb_eq in Ec as ->. rewrite joinLines_cons, IH. reflexivity.
  - now rewrite joinLines_head, IH.
Qed.

(** The lines of a content have no line feed. *)
Lemma Split_no_LF (s : string) :
  Forall (fun line => ~ Occurs nl line) (Split s LF).
Proof.
  induction s as [|c s IH]; cbn [Split].
  - constructor; [|constructor]. intros H. now apply Occurs_in_empty in H.
  - destruct (Ascii.eqb c LF) eqn:Ec.
    + constructor; [|exact IH]. intros H. now apply Occurs_in_empty in H.
    + destruct (Split s LF) as [|piece pieces];
        [constructor; [|constructor]|].
      * intros H. apply Occurs_cons in H as [H | H].
        -- cbn in H. rewrite Ec in H. discriminate.
        -- now apply Occurs_in_empty in H.
      * inversion IH as [|? ? Hpiece Hpieces]; subst.
        constructor; [|exact Hpieces].
        intros H. apply Occurs_cons in H as [H | H]; [|contradiction].
        cbn in H. rewrite Ec in H. discriminate.
Qed.

Lemma Split_one_line (line : string) :
  ~ Occurs nl line -> Split line LF = [line].
Proof.
  induction line as [|c line IH]; intros H; [reflexivity|].
  apply no_LF_cons in H as [Hc H]. cbn [Split].
  apply Ascii.eqb_neq in Hc. now rewrite Hc, (IH H).
Qed.

Lemma Split_line_then (line rest : string) :
  ~ Occurs nl line ->
  Split (line ++ nl ++ rest) LF = line :: Split rest LF.
Proof.
  induction line as [|c line IH]; intros H.
  - cbn. reflexivity.
  - apply no_LF_cons in H as [Hc H]. cbn [append Split].
    apply Ascii.eqb_neq in Hc. rewrite Hc.
    change (line ++ String LF rest) with (line ++ nl ++ rest).
    now rewrite (IH H).
Qed.

(** Splitting lines that were joined gives the lines back. *)
Lemma Split_joinLines (lines : list string) :
  lines <> [] -> Forall (fun line => ~ Occurs nl line) lines ->
  Split (joinLines lines) LF = lines.
Proof.
  induction lines as [|line lines IH]; [congruence|]. intros _ H.
  inversion H as [|? ? Hline Hlines]; subst.
  destruct lines as [|next lines].
  - now apply Split_one_line.
  - rewrite joinLines_cons, (Split_line_then _ _ Hline).
    f_equal. now apply IH.
Qed.

Lemma In_firstn_whole {A : Type} (n : nat) (xs : list A) (x : A) :
  In x (firstn n xs) -> In x xs.
Proof.
  intros H. rewrite <- (firstn_skipn n xs). apply in_or_app. now left.
Qed.

Lemma In_skipn_whole {A : Type} (n : nat) (xs : list A) (x : A) :
  In x (skipn n xs) -> In x xs.
Proof.
  intros H. rewrite <- (firstn_skipn n xs). apply in_or_app. now right.
Qed.

(** ** More on [getCodeAtLocation] *)

Section CodeAtLocationMore.

Variable ReadFile : string -> Result string.


(** X5: a range from line 0 to the last line or beyond gives the content of
    the target file, byte for byte. *)
Theorem getCodeAtLocation_whole_file (location : Location) (content : string) :
  ReadFile (TrimPrefix (URI location) "file://") = Ok content ->
  Line (Start (LRange location)) = 0 ->
  len (Split content LF) - 1 <= Line (End (LRange location)) ->
  getCodeAtLocation ReadFile location = Returns (Ok content).
Proof.
  intros Hread Hstart Hend.
  pose proof (len_nonneg (Split content LF)) as Hlen.
  assert (Hne : 0 < len (Split content LF)).
  { destruct (Split content LF) eqn:E; [now apply Split_nonempty in E|].
    rewrite len_cons. pose proof (len_nonneg l). lia. }
  rewrite (getCodeAtLocation_excerpt _ _ _ Hread) by lia.
  unfold linesBetween. rewrite Hstart. cbn [Z.to_nat skipn].
  rewrite firstn_all2 by (unfold len in *; lia).
  now rewrite joinLines_Split.
Qed.

(** X6: for a range inside the target file, the excerpt split at its line
    feeds is the list of the lines asked for: it has
    [endLine - startLine + 1] lines, those of the file. *)
Theorem getCodeAtLocation_lines (location : Location) (content : string) :
  ReadFile (TrimPrefix (URI location) "file://") = Ok content ->
  0 <= Line (Start (LRange location)) <= Line (End (LRange location)) ->
  Line (End (LRange location)) < len (Split content LF) ->
  exists excerpt,
    getCodeAtLocation ReadFile location = Returns (Ok excerpt) /\
    Split excerpt LF
    = linesBetween (Split content LF)
        (Line (Start (LRange location))) (Line (End (LRange location))) /\
    len (Split excerpt LF)
    = Line (End (LRange location)) - Line (Start (LRange location)) + 1.
Proof.
  intros Hread Hstart Hend. eexists. split.
  - apply (getCodeAtLocation_excerpt _ _ _ Hread). lia.
  - assert (Hsplit : Split (joinLines
                        (linesBetween (Split content LF)
                           (Line (Start (LRange location)))
                           (Line (End (LRange location))))) LF
                     = linesBetween (Split content LF)
                         (Line (Start (LRange location)))
                         (Line (End (LRange location)))).
    { apply Split_joinLines.
      - intros E.
        pose proof (linesBetween_length (Split content LF) _ _ Hstart Hend) as H.
        rewrite E in H. unfold len in H. simpl in H. lia.
      - unfold linesBetween. apply Forall_forall. intros line Hin.
        apply In_firstn_whole, In_skipn_whole in Hin.
        pose proof (Split_no_LF content) as Hall.
        rewrite Forall_forall in Hall. now apply Hall. }
    split; [exact Hsplit|]. rewrite Hsplit.
    now apply linesBetween_length.
Qed.

(** X7: a URI that does not begin with ["file://"] is taken as the path
    itself: the location is read like the one whose URI is ["file://"]
    followed by that text. *)
Theorem getCodeAtLocation_bare_path (uri : string) (range : Range) :
  HasPrefix uri "file://" = false ->
  getCodeAtLocation ReadFile (mkLocation uri range)
  = getCodeAtLocation ReadFile (mkLocation ("file://" ++ uri) range).
Proof.
  intros H. unfold getCodeAtLocation. cbn [URI LRange].
  rewrite TrimPrefix_append. unfold TrimPrefix. now rewrite H.
Qed.

End CodeAtLocationMore.

Lemma getCodeAtLocation_whole_file_witness :
  getCodeAtLocation Demo.ReadFile
    (mkLocation "file:///a.go" (mkRange (mkPosition 0 0) (mkPosition 99 0)))
  = Returns (Ok Demo.source).
Proof.
  apply (getCodeAtLocation_whole_file Demo.ReadFile
           (mkLocation "file:///a.go"
              (mkRange (mkPosition 0 0) (mkPosition 99 0))) Demo.source).
  - reflexivity.
  - reflexivity.
  - vm_compute. discriminate.
Defined.

Lemma getCodeAtLocation_lines_witness :
  exists excerpt,
    getCodeAtLocation Demo.ReadFile
      (mkLocation "file:///a.go" (mkRange (mkPosition 0 0) (mkPosition 1 0)))
    = Returns (Ok excerpt) /\
    Split excerpt LF = ["func Foo() {}"; "var x = Foo"] /\
    len (Split excerpt LF) = 2.
Proof.
  apply (getCodeAtLocation_lines Demo.ReadFile
           (mkLocation "file:///a.go"
              (mkRange (mkPosition 0 0) (mkPosition 1 0))) Demo.source).
  - reflexivity.
  - vm_compute. split; discriminate.
  - reflexivity.
Defined.

Lemma getCodeAtLocation_bare_path_witness :
  getCodeAtLocation Demo.ReadFile
    (mkLocation "/a.go" (mkRange (mkPosition 0 0) (mkPosition 0 0)))
  = getCodeAtLocation Demo.ReadFile
      (mkLocation "file:///a.go" (mkRange (mkPosition 0 0) (mkPosition 0 0))).
Proof.
  apply (getCodeAtLocation_bare_path Demo.ReadFile "/a.go"). reflexivity.
Defined.

(** ** The calls of a run *)

Section Traces.

Context {Client : Type}.
Variable ops : GoplsClientOps Client.
Variable ReadFile : string -> Result string.
Variable filePath : string.

Local Abbreviation uri := ("file://" ++ filePath).

Lemma initializeWorkspace_trace (s s' : Client * list Call)
  (err : option error) :
  initializeWorkspace (recording ops) ReadFile filePath s = (s', err) ->
  exists opened,
    snd s' = (snd s ++ handshakeCalls ops (fst s) ++ opened)%list /\
    match err with
    | None =>
        exists content,
          ReadFile filePath = Ok content /\
          opened = [CallDidOpen uri "go" content]
    | Some _ =>
        opened = [] \/ exists content, opened = [CallDidOpen uri "go" content]
    end.
Proof.
  unfold initializeWorkspace, handshakeCalls.
  cbn [recording initialized Initialize DidOpen].
  destruct (initialized ops (fst s)); cbn [negb].
  - destruct (ReadFile filePath) as [content|e].
    + destruct (DidOpen ops uri "go" content (fst s)) as [c2 [e2|]];
        intros [= <- <-]; exists [CallDidOpen uri "go" content];
        cbn [snd app]; eauto.
    + intros [= <- <-]. exists []. cbn [app]. rewrite app_nil_r. auto.
  - destruct (Initialize ops (fst s)) as [c1 [e1|]].
    + intros [= <- <-]. exists []. cbn [snd]. rewrite app_nil_r. auto.
    + destruct (ReadFile filePath) as [content|e].
      * cbn [fst snd].
        destruct (DidOpen ops uri "go" content c1) as [c2 [e2|]];
          intros [= <- <-]; exists [CallDidOpen uri "go" content];
          cbn [snd]; rewrite <- app_assoc; eauto.
      * intros [= <- <-]. exists []. cbn [snd]. rewrite app_nil_r. auto.
Qed.

Lemma lookupSymbol_trace (fileContent symbol : string)
  (s s' : Client * list Call) (results results' : string) :
  lookupSymbol (recording ops) ReadFile filePath fileContent symbol s results
  = Returns (s', results') ->
  snd s' = (snd s ++ definitionRequests uri fileContent [symbol])%list.
Proof.
  unfold lookupSymbol, definitionRequests. cbn [flat_map].
  destruct (findSymbolPosition fileContent symbol) as [position|].
  - unfold getDefinitionAtPosition. cbn [recording GoToDefinition].
    destruct (GoToDefinition ops uri _ _ (fst s)) as [c0 [[|first others]|err]];
      cbv zeta; rewrite app_nil_r.
    + now intros [= <- _].
    + destruct (getCodeAtLocation ReadFile first); [|discriminate].
      now intros [= <- _].
    + now intros [= <- _].
  - intros [= <- _]. cbn [app]. now rewrite app_nil_r.
Qed.

Lemma definitionRequests_cons (fileContent symbol : string)
  (symbols : list string) :
  definitionRequests uri fileContent (symbol :: symbols)
  = (definitionRequests uri fileContent [symbol]
     ++ definitionRequests uri fileContent symbols)%list.
Proof. unfold definitionRequests. cbn [flat_map]. now rewrite app_nil_r. Qed.

Lemma lookupSymbols_trace (fileContent : string) (symbols : list string) :
  forall (s s' : Client * list Call) (results results' : string),
    lookupSymbols (recording ops) ReadFile filePath fileContent symbols s results
    = Returns (s', results') ->
    snd s' = (snd s ++ definitionRequests uri fileContent symbols)%list.
Proof.
  induction symbols as [|symbol symbols IH]; intros s s' results results';
    cbn [lookupSymbols].
  - intros [= <- _]. unfold definitionRequests. cbn. now rewrite app_nil_r.
  - destruct (lookupSymbol _ _ _ _ _ _ _) as [[s1 results1]|] eqn:E;
      [|discriminate].
    intros H. apply lookupSymbol_trace in E. apply IH in H.
    rewrite H, E, (definitionRequests_cons fileContent symbol symbols).
    now rewrite <- app_assoc.
Qed.

(** X8: a run of [GetCodeDefinitions] that gives a report has made exactly
    these calls, in this order: [Initialize] if the client was not
    initialized, one [DidOpen] of the document with the content of the file,
    and then one [GoToDefinition] for each symbol that the locator finds,
    at the position the locator gives; a symbol that is not found makes no
    request. *)
Theorem GetCodeDefinitions_calls (symbols : list string)
  (s s' : Client * list Call) (report : string) :
  GetCodeDefinitions (recording ops) ReadFile filePath symbols s
  = Returns (s', Ok report) ->
  exists content,
    ReadFile filePath = Ok content /\
    snd s'
    = (snd s ++ handshakeCalls ops (fst s)
       ++ [CallDidOpen ("file://" ++ filePath) "go" content]
       ++ definitionRequests ("file://" ++ filePath) content symbols)%list.
Proof.
  unfold GetCodeDefinitions.
  destruct (initializeWorkspace _ _ _ _) as [s1 err] eqn:Einit.
  apply initializeWorkspace_trace in Einit as (opened & Hs1 & Hopened).
  destruct err as [err|]; [discriminate|].
  destruct Hopened as (content & Hread & ->).
  rewrite Hread. cbv zeta.
  destruct (lookupSymbols _ _ _ _ _ _ _) as [[s2 result]|] eqn:Eloop;
    [|discriminate].
  intros [= <- _]. apply lookupSymbols_trace in Eloop.
  exists content. split; [reflexivity|].
  rewrite Eloop, Hs1. now rewrite <- !app_assoc.
Qed.

(** X9: with files that do not change during the call, every error that
    [GetCodeDefinitions] returns is the error of [initializeWorkspace],
    under "failed to initialize workspace: "; the run has then made no
    definition request: its calls are the handshake, if the client was not
    initialized, and at most the [DidOpen]. *)
Theorem GetCodeDefinitions_error (symbols : list string)
  (s s' : Client * list Call) (err : error) :
  GetCodeDefinitions (recording ops) ReadFile filePath symbols s
  = Returns (s', Err err) ->
  exists cause opened,
    err = "failed to initialize workspace: " ++ cause /\
    initializeWorkspace (recording ops) ReadFile filePath s = (s', Some cause) /\
    snd s' = (snd s ++ handshakeCalls ops (fst s) ++ opened)%list /\
    (opened = [] \/
     exists content,
       opened = [CallDidOpen ("file://" ++ filePath) "go" content]).
Proof.
  unfold GetCodeDefinitions.
  destruct (initializeWorkspace _ _ _ _) as [s1 e] eqn:Einit.
  pose proof (initializeWorkspace_trace _ _ _ Einit)
    as (opened & Hs1 & Hopened).
  destruct e as [cause|].
  - intros [= <- <-]. exists cause, opened. auto.
  - destruct Hopened as (content & Hread & ->). rewrite Hread. cbv zeta.
    destruct (lookupSymbols _ _ _ _ _ _ _) as [[s2 result]|]; discriminate.
Qed.

End Traces.

Lemma GetCodeDefinitions_calls_witness :
  exists content,
    Demo.ReadFile "/a.go" = Ok content /\
    snd (true, [CallInitialize; CallDidOpen "file:///a.go" "go" Demo.source;
                CallGoToDefinition "file:///a.go" 0 0])
    = ([] ++ handshakeCalls Demo.client false
       ++ [CallDidOpen "file:///a.go" "go" content]
       ++ definitionRequests "file:///a.go" content ["Foo"; "Missing"])%list.
Proof.
  exact (GetCodeDefinitions_calls Demo.client Demo.ReadFile "/a.go"
           ["Foo"; "Missing"] (false, []) _ _ eq_refl).
Defined.

Lemma GetCodeDefinitions_error_witness :
  exists cause opened,
    "failed to initialize workspace: failed to read file content: open /b.go: no such file or directory"
    = "failed to initialize workspace: " ++ cause /\
    initializeWorkspace (recording Demo.client) Demo.ReadFile "/b.go" (false, [])
    = ((true, [CallInitialize]), Some cause) /\
    snd (true, [CallInitialize])
    = ([] ++ handshakeCalls Demo.client false ++ opened)%list /\
    (opened = [] \/
     exists content, opened = [CallDidOpen "file:///b.go" "go" content]).
Proof.
  exact (GetCodeDefinitions_error Demo.client Demo.ReadFile "/b.go"
           ["Foo"] (false, []) _ _ eq_refl).
Defined.

(** ** The directory walk *)

(** Induction on a directory tree: a property that holds for the unreadable
    directories, and for a listing once it holds for the subdirectories
    among its entries, holds for every directory. *)
Lemma Directory_tree_ind (P : Directory -> Prop) :
  (forall err, P (Unreadable err)) ->
  (forall entries,
     Forall (fun entry =>
               match entry with
               | File _ => True
               | Dir _ sub => P sub
               end) entries ->
     P (Listing entries)) ->
  forall directory, P directory.
Proof.
  intros Hu Hl. fix IH 1. intros [err|entries]; [apply Hu|].
  apply Hl. induction entries as [|entry entries IHentries]; constructor.
  - destruct entry as [name|name sub]; [exact I | apply IH].
  - exact IHentries.
Qed.

(** The loop gives the same text on two lists of entries with the same
    names and kinds, when the walks of the subdirectories give the same
    text. *)
Lemma walkEntries_map (f : DirEntry -> DirEntry)
  (walkSub walkSub' : Directory -> string -> string -> string * option error)
  (total : Z) (prefix : string) (entries : list DirEntry) :
  Forall (fun entry =>
            match entry with
            | File name => f entry = File name
            | Dir name sub =>
                exists sub',
                  f entry = Dir name sub' /\
                  forall p r, fst (walkSub sub p r) = fst (walkSub' sub' p r)
            end) entries ->
  forall (i : Z) (result : string),
    walkEntries walkSub total prefix entries i result
    = walkEntries walkSub' total prefix (map f entries) i result.
Proof.
  induction 1 as [|entry entries He _ IH]; intros i result; [reflexivity|].
  cbn [map walkEntries]. destruct entry as [name|name sub].
  - rewrite He. cbn [Name]. destruct (HasPrefix name "."); apply IH.
  - destruct He as (sub' & -> & Hsub). cbn [Name].
    destruct (HasPrefix name "."); [apply IH|]. cbv zeta.
    match goal with
    | |- context [walkSub sub ?p ?r] =>
        specialize (Hsub p r);
        destruct (walkSub sub p r) as [r1 e1];
        destruct (walkSub' sub' p r) as [r2 e2]
    end.
    cbn [fst] in Hsub. subst r2. apply IH.
Qed.

(** X10: [GetDirectoryStructure] fails exactly when the depth is not
    negative and the directory itself cannot be read, with the error of
    [os.ReadDir] as it is; with a negative depth it reads nothing and gives
    the empty text, and a subdirectory that cannot be read never makes it
    fail. *)
Theorem GetDirectoryStructure_error (ReadDir : string -> Directory)
  (path : string) (maxDepth : Z) :
  (forall err,
     GetDirectoryStructure ReadDir path maxDepth = Err err <->
     0 <= maxDepth /\ ReadDir path = Unreadable err) /\
  (maxDepth < 0 -> GetDirectoryStructure ReadDir path maxDepth = Ok "").
Proof.
  unfold GetDirectoryStructure. cbv zeta. split.
  - intros err. destruct (ReadDir path) as [e|entries]; cbn [walkDirectory];
      destruct (maxDepth <? 0) eqn:E;
      (apply Z.ltb_lt in E || apply Z.ltb_ge in E).
    + split; [discriminate | lia].
    + split; [intros [= ->]; now split | now intros [_ [= ->]]].
    + split; [discriminate | lia].
    + split; [discriminate | intros [_ H]; discriminate].
  - intros H. destruct (ReadDir path); cbn [walkDirectory];
      now replace (maxDepth <? 0) with true by (symmetry; apply Z.ltb_lt; lia).
Qed.

Lemma GetDirectoryStructure_error_witness :
  GetDirectoryStructure DemoDir.ReadDir "/nowhere" (-1) = Ok "".
Proof.
  apply (proj2 (GetDirectoryStructure_error DemoDir.ReadDir "/nowhere" (-1))).
  lia.
Defined.

Lemma walkDirectory_emptied (directory : Directory) :
  forall (prefix : string) (currentDepth maxDepth : Z) (result : string),
    fst (walkDirectory directory prefix currentDepth maxDepth result)
    = fst (walkDirectory (emptied directory) prefix currentDepth maxDepth result).
Proof.
  induction directory as [err|entries IH] using Directory_tree_ind;
    intros prefix currentDepth maxDepth result; cbn [walkDirectory emptied];
    destruct (maxDepth <? currentDepth); try reflexivity.
  cbn [fst]. unfold len. rewrite length_map. apply walkEntries_map.
  eapply Forall_impl; [|exact IH]. intros [name|name sub] H; [reflexivity|].
  exists (emptied sub). split; [reflexivity|]. intros p r. apply H.
Qed.

(** X11: a subdirectory that cannot be read is drawn like an empty one: the
    text for a directory that is read is the text for the same tree with
    every unreadable directory made empty. *)
Theorem GetDirectoryStructure_unreadable_as_empty
  (ReadDir ReadDir' : string -> Directory) (path : string) (maxDepth : Z)
  (entries : list DirEntry) :
  ReadDir path = Listing entries ->
  ReadDir' path = emptied (Listing entries) ->
  GetDirectoryStructure ReadDir path maxDepth
  = GetDirectoryStructure ReadDir' path maxDepth.
Proof.
  intros H H'. unfold GetDirectoryStructure. cbv zeta. rewrite H, H'.
  pose proof (walkDirectory_emptied (Listing entries) "" 0 maxDepth "") as E.
  revert E. cbn [walkDirectory emptied].
  destruct (maxDepth <? 0); [reflexivity|]. cbn [fst]. now intros ->.
Qed.

Lemma GetDirectoryStructure_unreadable_as_empty_witness :
  GetDirectoryStructure DemoDir.ReadDir "." 3
  = GetDirectoryStructure (fun _ => emptied DemoDir.tree) "." 3.
Proof.
  apply (GetDirectoryStructure_unreadable_as_empty DemoDir.ReadDir
           (fun _ => emptied DemoDir.tree) "." 3
           [ File ".gitignore";
             Dir "src" (Listing [File "main.go";
                                 Dir "protocol" (Listing [File "lsp.go"])]);
             Dir "private" (Unreadable "open private: permission denied");
             File "go.mod" ]); reflexivity.
Defined.

Lemma walkDirectory_cut (levels : nat) :
  forall (directory : Directory) (prefix : string)
         (currentDepth maxDepth : Z) (result : string),
    0 <= currentDepth -> maxDepth < MaxInt ->
    (Z.to_nat (maxDepth - currentDepth + 1) <= levels)%nat ->
    walkDirectory directory prefix currentDepth maxDepth result
    = walkDirectory (cut levels directory) prefix currentDepth maxDepth result.
Proof.
  induction levels as [|levels IH];
    intros directory prefix currentDepth maxDepth result Hcur Hmax Hlevels.
  - destruct directory; cbn [walkDirectory cut];
      now replace (maxDepth <? currentDepth) with true
        by (symmetry; apply Z.ltb_lt; lia).
  - destruct directory as [err|entries]; [reflexivity|].
    cbn [walkDirectory cut].
    destruct (maxDepth <? currentDepth) eqn:E; [reflexivity|].
    apply Z.ltb_ge in E. f_equal. unfold len. rewrite length_map.
    apply walkEntries_map. apply Forall_forall.
    intros [name|name sub] _; [reflexivity|].
    exists (cut levels sub). split; [reflexivity|]. intros p r.
    assert (Hnext : int_add currentDepth 1 = currentDepth + 1)
      by (apply int_add_in_range; lia).
    rewrite Hnext. f_equal. apply IH; lia.
Qed.

(** X12: what lies deeper than [maxDepth] has no part in the result: two
    directory trees with the same first [maxDepth + 1] levels give the same
    result, error or text. *)
Theorem GetDirectoryStructure_depth (ReadDir ReadDir' : string -> Directory)
  (path : string) (maxDepth : Z) :
  maxDepth < MaxInt ->
  cut (Z.to_nat (maxDepth + 1)) (ReadDir path)
  = cut (Z.to_nat (maxDepth + 1)) (ReadDir' path) ->
  GetDirectoryStructure ReadDir path maxDepth
  = GetDirectoryStructure ReadDir' path maxDepth.
Proof.
  intros Hmax Hcut. unfold GetDirectoryStructure. cbv zeta.
  rewrite (walkDirectory_cut (Z.to_nat (maxDepth + 1)) (ReadDir path))
    by (try lia; replace (maxDepth - 0 + 1) with (maxDepth + 1) by lia; lia).
  rewrite (walkDirectory_cut (Z.to_nat (maxDepth + 1)) (ReadDir' path))
    by (try lia; replace (maxDepth - 0 + 1) with (maxDepth + 1) by lia; lia).
  now rewrite Hcut.
Qed.

(** With depth 1 the file below [src/protocol] does not count. *)
Lemma GetDirectoryStructure_depth_witness :
  GetDirectoryStructure DemoDir.ReadDir "." 1
  = GetDirectoryStructure
      (fun _ =>
         Listing
           [ File ".gitignore";
             Dir "src" (Listing [File "main.go";
                                 Dir "protocol" (Unreadable "gone")]);
             Dir "private" (Unreadable "open private: permission denied");
             File "go.mod" ]) "." 1.
Proof.
  apply GetDirectoryStructure_depth; [vm_compute; reflexivity | reflexivity].
Defined.

(** ** Hidden entries *)

Lemma pruned_Listing (entries : list DirEntry) :
  pruned (Listing entries) = Listing (visibleEntries entries).
Proof.
  cbn [pruned]. f_equal. unfold visibleEntries.
  induction entries as [|entry entries IH]; [reflexivity|].
  cbn [filter]. destruct (hidden entry); cbn [negb map]; now rewrite IH.
Qed.

Lemma lastVisible_tail (entry : DirEntry) (rest : list DirEntry) :
  lastVisible (entry :: rest) = true ->
  lastVisible rest = true /\ (hidden entry = true -> rest <> []).
Proof.
  destruct rest as [|next rest]; cbn [lastVisible last].
  - intros H. split; [reflexivity|]. intros Hh. now rewrite Hh in H.
  - intros H. split; [exact H | discriminate].
Qed.

Lemma visibleEntries_nonempty (entries : list DirEntry) :
  entries <> [] -> lastVisible entries = true -> visibleEntries entries <> [].
Proof.
  induction entries as [|entry entries IH]; [congruence|]. intros _ H.
  destruct (lastVisible_tail _ _ H) as [Htail Hrest].
  unfold visibleEntries in *. cbn [filter].
  destruct (hidden entry); cbn [negb map]; [|discriminate].
  apply IH; [now apply Hrest | exact Htail].
Qed.

(** The loop on a list whose last entry is not hidden, and the loop on its
    entries that are not hidden, write the same text. *)
Lemma walkEntries_visible
  (walkSub walkSub' : Directory -> string -> string -> string * option error)
  (total total' : Z) (prefix : string) (remaining : list DirEntry) :
  Forall (fun entry =>
            hidden entry = false ->
            match entry with
            | File _ => True
            | Dir _ sub =>
                forall p r,
                  fst (walkSub sub p r) = fst (walkSub' (pruned sub) p r)
            end) remaining ->
  lastVisible remaining = true ->
  forall (i i' : Z) (result : string),
    i + len remaining = total ->
    i' + len (visibleEntries remaining) = total' ->
    walkEntries walkSub total prefix remaining i result
    = walkEntries walkSub' total' prefix (visibleEntries remaining) i' result.
Proof.
  induction 1 as [|entry rest He _ IH]; intros Hlast i i' result Hi Hi';
    [reflexivity|].
  destruct (lastVisible_tail _ _ Hlast) as [Htail Hrest].
  unfold visibleEntries in *. cbn [filter walkEntries].
  fold (hidden entry). destruct (hidden entry) eqn:Eh; cbn [negb map].
  - apply IH; trivial.
    + rewrite len_cons in Hi. lia.
    + cbn [filter] in Hi'. rewrite Eh in Hi'. exact Hi'.
  - cbn [filter] in Hi'. rewrite Eh in Hi'. cbn [negb map] in Hi'.
    rewrite len_cons in Hi, Hi'.
    assert (Hsame : (i =? total - 1) = (i' =? total' - 1)).
    { destruct rest as [|next rest].
      - cbn in Hi, Hi'.
        replace (i =? total - 1) with true by (symmetry; apply Z.eqb_eq; lia).
        symmetry. apply Z.eqb_eq. lia.
      - pose proof (visibleEntries_nonempty (next :: rest)
                      ltac:(discriminate) Htail) as Hne.
        unfold visibleEntries in Hne.
        destruct (map _ (filter _ (next :: rest))) as [|v vs] eqn:Ev;
          [congruence|].
        rewrite len_cons in Hi. rewrite len_cons in Hi'.
        pose proof (len_nonneg rest). pose proof (len_nonneg vs).
        replace (i =? total - 1) with false by (symmetry; apply Z.eqb_neq; lia).
        symmetry. apply Z.eqb_neq. lia. }
    specialize (He eq_refl).
    assert (Hname : forall e : DirEntry,
               Name match e with
                    | File name => File name
                    | Dir name sub => Dir name (pruned sub)
                    end = Name e) by (now intros [?|? ?]).
    cbn [walkEntries]. rewrite Hname. fold (hidden entry). rewrite Eh.
    cbv zeta. rewrite Hsame.
    destruct entry as [name|name sub]; cbn [Name].
    + apply IH; trivial; lia.
    + match goal with
      | |- context [walkSub sub ?p ?r] =>
          specialize (He p r);
          destruct (walkSub sub p r) as [r1 e1];
          destruct (walkSub' (pruned sub) p r) as [r2 e2]
      end.
      cbn [fst] in He. subst r2. apply IH; trivial; lia.
Qed.

Lemma walkDirectory_pruned (directory : Directory) :
  tidy directory = true ->
  forall (prefix : string) (currentDepth maxDepth : Z) (result : string),
    walkDirectory directory prefix currentDepth maxDepth result
    = walkDirectory (pruned directory) prefix currentDepth maxDepth result.
Proof.
  induction directory as [err|entries IH] using Directory_tree_ind;
    intros Htidy prefix currentDepth maxDepth result; [reflexivity|].
  rewrite pruned_Listing. cbn [walkDirectory].
  destruct (maxDepth <? currentDepth); [reflexivity|]. f_equal.
  cbn [tidy] in Htidy. apply andb_true_iff in Htidy as [Hlast Hall].
  apply walkEntries_visible; trivial; try lia.
  rewrite forallb_forall in Hall. rewrite Forall_forall in IH.
  apply Forall_forall. intros entry Hin Hvisible.
  specialize (Hall _ Hin). specialize (IH _ Hin).
  rewrite Hvisible in Hall. cbn [orb] in Hall.
  destruct entry as [name|name sub]; [exact I|].
  intros p r. now rewrite (IH Hall).
Qed.

(** X13: hidden entries leave no trace in the result, as long as no
    directory has a hidden entry as its last entry: the result for such a
    tree is the result for the tree without its hidden entries. *)
Theorem GetDirectoryStructure_hidden (ReadDir ReadDir' : string -> Directory)
  (path : string) (maxDepth : Z) :
  tidy (ReadDir path) = true ->
  ReadDir' path = pruned (ReadDir path) ->
  GetDirectoryStructure ReadDir path maxDepth
  = GetDirectoryStructure ReadDir' path maxDepth.
Proof.
  intros Htidy H'. unfold GetDirectoryStructure. cbv zeta.
  now rewrite H', (walkDirectory_pruned _ Htidy).
Qed.

Lemma GetDirectoryStructure_hidden_witness :
  GetDirectoryStructure DemoDir.ReadDir "." 3
  = GetDirectoryStructure (fun _ => pruned DemoDir.tree) "." 3.
Proof.
  apply GetDirectoryStructure_hidden; reflexivity.
Defined.

(** ** Function calls *)

Section FunctionCallFacts.

Variable float64 : Type.
Variable truncate : float64 -> Z.
Context {Client : Type}.
Variable goplsClient : GoplsClientOps Client.
Variable ReadFile : string -> Result string.
Variable ReadDir : string -> Directory.

Local Abbreviation handle :=
  (handleFunctionCall float64 truncate goplsClient ReadFile ReadDir).

Lemma symbolStrings_strings (strs : list string) (i : Z) :
  symbolStrings float64 (map VString strs) i = Ok strs.
Proof.
  revert i. induction strs as [|str strs IH]; intros i; [reflexivity|].
  cbn [map symbolStrings]. now rewrite IH.
Qed.

(** The conversion stops at the first element that is not a string and
    names its index. *)
Lemma symbolStrings_first_other (strs : list string) (other : Value float64)
  (rest : list (Value float64)) (i : Z) :
  (forall s, other <> VString s) ->
  symbolStrings float64 (map VString strs ++ other :: rest)%list i
  = Err ("symbol at index " ++ formatInt (i + len strs) ++ " is not a string").
Proof.
  intros Hother. revert i.
  induction strs as [|str strs IH]; intros i; cbn [map app symbolStrings].
  - replace (i + len []) with i by (unfold len; simpl; lia).
    destruct other; try reflexivity. now destruct (Hother s).
  - rewrite IH, len_cons. now replace (i + 1 + len strs) with (i + (1 + len strs)) by lia.
Qed.

(** X14: when the array of symbols holds something that is not a string,
    both calls that look up definitions fail with "symbol at index k is not
    a string", [k] the index of the first such element, and return the
    client as it was: gopls is not used. *)
Theorem handleFunctionCall_symbol_not_a_string (args : Args float64)
  (path : string) (strs : list string) (other : Value float64)
  (rest : list (Value float64)) (c : Client) :
  (forall s, other <> VString s) ->
  args "symbols" = Some (VArray (map VString strs ++ other :: rest)%list) ->
  let failure :=
    Returns (c, Err ("symbol at index " ++ formatInt (len strs)
                       ++ " is not a string")) in
  (args "action" = Some (VString "code_definitions") ->
   args "path" = Some (VString path) ->
   handle "analyze_go_code" args c = failure) /\
  (args "file_path" = Some (VString path) ->
   handle "get_code_definitions" args c = failure).
Proof.
  intros Hother Hsymbols failure. unfold handleFunctionCall, stringArg, arrayArg.
  cbn [String.eqb Ascii.eqb Bool.eqb]. rewrite Hsymbols.
  rewrite (symbolStrings_first_other strs other rest 0 Hother).
  cbn [Z.add]. split.
  - intros -> ->. reflexivity.
  - intros ->. reflexivity.
Qed.

(** X15: the call [analyze_go_code] with the action [code_definitions] and
    the older call [get_code_definitions] are the same operation: with the
    same file, under [path] for the one and [file_path] for the other, and
    the same array of symbols, they end alike, in the result and in the
    state of the client. *)
Theorem handleFunctionCall_same_operation (args args' : Args float64)
  (path : string) (items : list (Value float64)) (c : Client) :
  args "action" = Some (VString "code_definitions") ->
  args "path" = Some (VString path) ->
  args' "file_path" = Some (VString path) ->
  args "symbols" = Some (VArray items) ->
  args' "symbols" = Some (VArray items) ->
  handle "analyze_go_code" args c = handle "get_code_definitions" args' c.
Proof.
  intros Haction Hpath Hfile Hsymbols Hsymbols'.
  unfold handleFunctionCall, stringArg, arrayArg.
  cbn [String.eqb Ascii.eqb Bool.eqb].
  now rewrite Haction, Hpath, Hfile, Hsymbols, Hsymbols'.
Qed.

(** X16: after a call that [handleFunctionCall] handled with success, the
    prompt chosen in [GenerateContent] depends on the name of the function
    alone: the unit-test prompt for the two calls that look up definitions,
    the general prompt for the directory structure. The prompt "Please
    analyze the Go code data ..." is never the one sent after a success. *)
Theorem followUpPrompt_after_success (name : string) (args : Args float64)
  (c c' : Client) (result : string) :
  handle name args c = Returns (c', Ok result) ->
  (name = "get_directory_structure" /\
   followUpPrompt float64 name args
   = "Please analyze the data provided by the function call and provide relevant insights.") \/
  ((name = "analyze_go_code" \/ name = "get_code_definitions") /\
   followUpPrompt float64 name args
   = "Based on the code definitions provided, please analyze the code structure and help with generating appropriate unit tests.").
Proof.
  unfold handleFunctionCall, followUpPrompt. cbv zeta.
  destruct (String.eqb_spec name "analyze_go_code") as [->|_].
  - destruct (stringArg float64 args "action") as [action|]; [|discriminate].
    destruct (stringArg float64 args "path"); [|discriminate].
    destruct (action =? "code_definitions")%string; [|discriminate].
    intros _. right. split; [now left | reflexivity].
  - destruct (String.eqb_spec name "get_directory_structure") as [->|_].
    + intros _. left. split; reflexivity.
    + destruct (String.eqb_spec name "get_code_definitions") as [->|_];
        [|discriminate].
      intros _. right. split; [now right | reflexivity].
Qed.

(** X17: the handler keeps the call of the program that had the directory
    tool alone: whatever that program's [handleFunctionCall] answers to
    [get_directory_structure], result or error, the handler answers the
    same and does not touch the client; and every call that program handled
    with success is handled with the same result. *)
Theorem handleFunctionCall_keeps_directory_call (name : string)
  (args : Args float64) (c : Client) :
  (name = "get_directory_structure" ->
   handle name args c
   = Returns (c, handleDirectoryCall float64 truncate ReadDir name args)) /\
  (forall structure,
     handleDirectoryCall float64 truncate ReadDir name args = Ok structure ->
     handle name args c = Returns (c, Ok structure)).
Proof.
  assert (H : name = "get_directory_structure" ->
              handle name args c
              = Returns (c, handleDirectoryCall float64 truncate ReadDir
                              name args)).
  { intros ->. unfold handleFunctionCall, handleDirectoryCall.
    cbn [String.eqb Ascii.eqb Bool.eqb].
    destruct (stringArg float64 args "path") as [path|]; [|reflexivity].
    cbv zeta. now destruct (GetDirectoryStructure _ _ _). }
  split; [exact H|]. intros structure Hok.
  destruct (String.eqb_spec name "get_directory_structure") as [E|E].
  - now rewrite (H E), Hok.
  - unfold handleDirectoryCall in Hok. apply String.eqb_neq in E.
    rewrite E in Hok. discriminate.
Qed.

End FunctionCallFacts.

Lemma handleFunctionCall_symbol_not_a_string_witness :
  DemoCalls.handle "analyze_go_code"
    (DemoCalls.analyze [VString "Foo"; VNumber 7; VString "Bar"]) false
  = Returns (false, Err "symbol at index 1 is not a string").
Proof.
  refine (proj1 (handleFunctionCall_symbol_not_a_string
                   DemoCalls.float64 DemoCalls.truncate
                   Demo.client Demo.ReadFile DemoDir.ReadDir
                   (DemoCalls.analyze [VString "Foo"; VNumber 7; VString "Bar"])
                   "/a.go" ["Foo"] (VNumber 7) [VString "Bar"] false
                   _ eq_refl) eq_refl eq_refl).
  discriminate.
Defined.

Lemma handleFunctionCall_same_operation_witness :
  DemoCalls.handle "analyze_go_code" (DemoCalls.analyze [VString "Foo"]) false
  = DemoCalls.handle "get_code_definitions"
      (DemoCalls.definitions [VString "Foo"]) false.
Proof.
  exact (handleFunctionCall_same_operation
           DemoCalls.float64 DemoCalls.truncate
           Demo.client Demo.ReadFile DemoDir.ReadDir
           (DemoCalls.analyze [VString "Foo"])
           (DemoCalls.definitions [VString "Foo"])
           "/a.go" [VString "Foo"] false
           eq_refl eq_refl eq_refl eq_refl eq_refl).
Defined.

Lemma followUpPrompt_after_success_witness :
  followUpPrompt DemoCalls.float64 "get_directory_structure" DemoCalls.structure
  = "Please analyze the data provided by the function call and provide relevant insights.".
Proof.
  destruct (followUpPrompt_after_success
              DemoCalls.float64 DemoCalls.truncate
              Demo.client Demo.ReadFile DemoDir.ReadDir
              "get_directory_structure" DemoCalls.structure false false
              _ eq_refl) as [[_ H] | [[H | H] _]].
  - exact H.
  - discriminate H.
  - discriminate H.
Defined.

Lemma handleFunctionCall_keeps_directory_call_witness :
  DemoCalls.handle "get_directory_structure" DemoCalls.structure true
  = Returns (true,
             handleDirectoryCall DemoCalls.float64 DemoCalls.truncate
               DemoDir.ReadDir "get_directory_structure" DemoCalls.structure).
Proof.
  exact (proj1 (handleFunctionCall_keeps_directory_call
                  DemoCalls.float64 DemoCalls.truncate
                  Demo.client Demo.ReadFile DemoDir.ReadDir
                  "get_directory_structure" DemoCalls.structure true)
           eq_refl).
Defined.

(** ** Leftmost matches *)

(** [strings.Index] gives the first index at which the substring occurs. *)
Lemma Index_first (s substr : string) (j : Z) :
  StartsAt s substr j -> 0 <= Index s substr <= j.
Proof.
  revert j. induction s as [|c s IH]; intros j (pre & post & E & Hlen).
  - destruct pre; [|discriminate]. cbn in Hlen. subst j. cbn [Index].
    replace (HasPrefix "" substr) with true; [lia|].
    symmetry. apply HasPrefix_iff. now exists post.
  - cbn [Index]. destruct (HasPrefix (String c s) substr) eqn:Ep; [lia|].
    destruct pre as [|x pre].
    + exfalso. apply Bool.not_true_iff_false in Ep. apply Ep.
      apply HasPrefix_iff. now exists post.
    + injection E as _ ->. cbn [String.length] in Hlen.
      assert (Hs : StartsAt (pre ++ substr ++ post) substr (j - 1))
        by (exists pre, post; split; [reflexivity | lia]).
      specialize (IH _ Hs).
      replace (Index (pre ++ substr ++ post) substr =? -1) with false
        by (symmetry; apply Z.eqb_neq; lia).
      lia.
Qed.

(** X18: the character returned is the leftmost place of what was matched:
    on the line of the position, the text matched (the pattern that won, or
    the symbol when no pattern matches) starts at the character returned and
    at no smaller index. *)
Theorem findSymbolPosition_leftmost (content symbol : string) (p : Position) :
  findSymbolPosition content symbol = Some p ->
  exists line text,
    index (Split content LF) (Line p) = Some line /\
    (In text (patterns symbol) \/
     text = symbol /\ Forall (fun q => Index line q = -1) (patterns symbol)) /\
    StartsAt line text (Character p) /\
    forall j, StartsAt line text j -> Character p <= j.
Proof.
  unfold findSymbolPosition. cbv zeta. intros H.
  destruct (scanLines_Some _ _ _ _ H)
    as (before & line & after & E & _ & Hline & HL & HC).
  assert (Hindex : index (Split content LF) (Line p) = Some line).
  { rewrite E, HL. cbn [Z.add]. apply index_middle. }
  destruct (matchPatterns line (patterns symbol)) as [idx|] eqn:Em.
  - destruct (matchPatterns_Some _ _ _ Em) as (pattern & Hin & Hm & ->).
    exists line, pattern. rewrite HC. repeat split; auto.
    + now apply Index_StartsAt.
    + intros j Hj. apply Index_first in Hj. lia.
  - exists line, symbol. rewrite HC. repeat split; auto.
    + right. split; [reflexivity | now apply matchPatterns_None].
    + apply Index_StartsAt, Index_found. now apply Contains_true.
    + intros j Hj. apply Index_first in Hj. lia.
Qed.

Lemma findSymbolPosition_leftmost_witness :
  exists line text,
    index (Split "Foo(); x = Foo" LF) 0 = Some line /\
    (In text (patterns "Foo") \/
     text = "Foo" /\ Forall (fun q => Index line q = -1) (patterns "Foo")) /\
    StartsAt line text 0 /\
    forall j, StartsAt line text j -> 0 <= j.
Proof.
  exact (findSymbolPosition_leftmost "Foo(); x = Foo" "Foo" (mkPosition 0 0)
           eq_refl).
Defined.

(** ** Failures before gopls *)

Section FunctionCallFailures.

Variable float64 : Type.
Variable truncate : float64 -> Z.
Context {Client : Type}.
Variable goplsClient : GoplsClientOps Client.
Variable ReadFile : string -> Result string.
Variable ReadDir : string -> Directory.

(** X19: a call that [handleFunctionCall] rejects leaves the client as it
    was, unless the error is the error of [GetCodeDefinitions] itself, under
    "failed to get code definitions: ": wrong names and wrong arguments
    never reach gopls. *)
Theorem handleFunctionCall_rejects_before_gopls (name : string)
  (args : Args float64) (c c' : Client) (err : error) :
  handleFunctionCall float64 truncate goplsClient ReadFile ReadDir name args c
  = Returns (c', Err err) ->
  c' = c \/ exists cause, err = "failed to get code definitions: " ++ cause.
Proof.
  assert (Hcall : forall path symbols,
             callGetCodeDefinitions goplsClient ReadFile path symbols c
             = Returns (c', Err err) ->
             exists cause, err = "failed to get code definitions: " ++ cause).
  { intros path symbols. unfold callGetCodeDefinitions.
    destruct (GetCodeDefinitions _ _ _ _ _) as [[c1 [report|cause]]|];
      intros [= _ <-]. now exists cause. }
  unfold handleFunctionCall.
  destruct (name =? "analyze_go_code")%string.
  - destruct (stringArg float64 args "action") as [action|];
      [|intros [= <- _]; now left].
    destruct (stringArg float64 args "path") as [path|];
      [|intros [= <- _]; now left].
    destruct (action =? "code_definitions")%string;
      [|intros [= <- _]; now left].
    destruct (arrayArg float64 args "symbols") as [items|];
      [|intros [= <- _]; now left].
    destruct (symbolStrings float64 items 0) as [symbols|e];
      [|intros [= <- _]; now left].
    intros H. right. exact (Hcall _ _ H).
  - destruct (name =? "get_directory_structure")%string.
    + destruct (stringArg float64 args "path") as [path|];
        [|intros [= <- _]; now left].
      cbv zeta. destruct (GetDirectoryStructure _ _ _);
        intros [= <- _]; now left.
    + destruct (name =? "get_code_definitions")%string;
        [|intros [= <- _]; now left].
      destruct (stringArg float64 args "file_path") as [path|];
        [|intros [= <- _]; now left].
      destruct (arrayArg float64 args "symbols") as [items|];
        [|intros [= <- _]; now left].
      destruct (symbolStrings float64 items 0) as [symbols|e];
        [|intros [= <- _]; now left].
      intros H. right. exact (Hcall _ _ H).
Qed.

End FunctionCallFailures.

Lemma handleFunctionCall_rejects_before_gopls_witness :
  false = false \/
  exists cause,
    "unknown action: list_symbols" = "failed to get code definitions: " ++ cause.
Proof.
  exact (handleFunctionCall_rejects_before_gopls
           DemoCalls.float64 DemoCalls.truncate
           Demo.client Demo.ReadFile DemoDir.ReadDir
           "analyze_go_code"
           (object DemoCalls.float64
              [("action", VString "list_symbols"); ("path", VString "/a.go")])
           false false "unknown action: list_symbols" eq_refl).
Defined.
